(** * Gemini Multimodal Live events: message model and server-event decoding

    A shallow embedding of [pipecat/services/gemini_multimodal_live/events.py].

    The Python module declares pydantic models for the client and server
    messages of the protocol, constructors for client messages and one
    decode entry point, [parse_server_event].  The embedding keeps the
    module's names: every model class is a Rocq [Module] holding a record
    [t] with the class's fields and a [model_validate] function, and the
    module-level function [parse_server_event] is a function of the raw
    text and the state of the log sink.

    Every model of the module is embedded.  The image codec behind
    [VideoInputMessage.from_image_frame] is not part of the module: the
    constructor takes it as an argument.

    Three pieces of the Python runtime are needed to run the code and are
    embedded next to it: [json.loads] (section "JSON decoding"), the
    validation discipline of pydantic models (section "Validation") and
    [base64.b64encode]/[b64decode] (module [base64]).  Building a model
    from keyword arguments is the validation of the dict of the
    arguments. *)

From Stdlib Require Import List ZArith NArith Bool Lia String Ascii.
From Stdlib.Strings Require Import Byte.
From Stdlib Require Import SpecFloat DecimalString DecimalZ DecimalPos.
From Stdlib Require DecimalFacts.
Import ListNotations.

Set Implicit Arguments.
Set Warnings "-register-all".
Open Scope Z_scope.

(** ** Python values *)

(** A Python [str] is a sequence of Unicode code points; [len] and slicing
    count code points. *)
Definition char := N.
Definition pystr := list char.

Definition py (s : string) : pystr :=
  List.map N_of_ascii (list_ascii_of_string s).

Fixpoint pystr_eqb (a b : pystr) : bool :=
  match a, b with
  | [], [] => true
  | x :: a', y :: b' => N.eqb x y && pystr_eqb a' b'
  | _, _ => false
  end.

(** [c] is the ASCII character [a]. *)
Definition is_chr (c : char) (a : ascii) : bool := N.eqb c (N_of_ascii a).

(** A Python [float] is an IEEE 754 binary64 number. *)
Definition pyfloat := spec_float.

(** The values [json.loads] builds: [None], [bool], [int], [float], [str],
    [list] and [dict].  A [dict] keeps its keys in insertion order. *)
Inductive json :=
| JNull
| JBool (b : bool)
| JInt (z : Z)
| JFloat (f : pyfloat)
| JStr (s : pystr)
| JArray (items : list json)
| JObject (fields : list (pystr * json)).

Definition dict := list (pystr * json).

(** [d.get(k)] / [k in d] / [d[k]] on a dict. *)
Fixpoint dict_get (k : pystr) (d : dict) : option json :=
  match d with
  | [] => None
  | (k', v) :: d' => if pystr_eqb k k' then Some v else dict_get k d'
  end.

(** [d[k] = v]: an existing key keeps its position and takes the new value,
    a new key goes last. *)
Fixpoint dict_set (d : dict) (k : pystr) (v : json) : dict :=
  match d with
  | [] => [(k, v)]
  | (k', v') :: d' =>
      if pystr_eqb k k' then (k', v) :: d' else (k', v') :: dict_set d' k v
  end.

(** ** Exceptions *)

(** The exception classes the module can meet, and the two standard ones
    that do not derive from [Exception]. *)
Inductive pyclass :=
| KeyboardInterrupt
| SystemExit
| JSONDecodeError
| ValueError
| RecursionError
| TypeError
| KeyError
| ValidationError.

(** [issubclass(c, Exception)]. *)
Definition is_Exception (c : pyclass) : bool :=
  match c with
  | KeyboardInterrupt | SystemExit => false
  | _ => true
  end.

(** An exception instance: its class and [str(e)].  The text is a short
    description of the fault; the position and version details that the
    libraries append to their messages are left out. *)
Record exn := mkExn { exn_class : pyclass; exn_str : pystr }.

Inductive result (A : Type) :=
| Ok (a : A)
| Raise (e : exn).
Arguments Ok {A} a.
Arguments Raise {A} e.

Definition bind {A B} (r : result A) (k : A -> result B) : result B :=
  match r with
  | Ok a => k a
  | Raise e => Raise e
  end.

Declare Scope py_scope.
Delimit Scope py_scope with pyr.
Notation "x <- r ;; k" := (bind r (fun x => k))
  (at level 61, r at next level, right associativity) : py_scope.
Notation "' p <- r ;; k" := (bind r (fun x => let p := x in k))
  (at level 61, p pattern, r at next level, right associativity) : py_scope.
Open Scope py_scope.

Definition raise {A} (c : pyclass) (msg : string) : result A :=
  Raise (mkExn c (py msg)).

(** ** The runtime the module runs on *)

(** What the code inherits from the interpreter and from the validation
    library and does not fix itself:
    - [recursion_limit]: how many nested values the JSON scanner may enter
      before the interpreter raises [RecursionError]; this is the depth the
      interpreter has left where the function is called, so it is a state
      of the call and differs from one call to the next;
    - [int_max_str_digits]: the interpreter's limit on the number of digits
      of an integer it converts from or to text ([0] turns the limit off),
      a setting of the process that can be changed between two calls;
    - [lax_int], [lax_float], [lax_bool]: the library's lax-mode coercion of
      a scalar that is not of the field's own type (a numeric string for an
      [int] field, [1] for a [bool] field and so on); [None] is a
      rejection. *)
Class Runtime := {
  recursion_limit : nat;
  int_max_str_digits : nat;
  lax_int : json -> option Z;
  lax_float : json -> option pyfloat;
  lax_bool : json -> option bool
}.

(** ** Floats from decimal literals *)

(** The binary64 number nearest to [(-1)^neg * P / Q] ([0 <= P], [0 < Q]),
    ties to even; overflow gives an infinity. *)
Definition float_of_ratio (neg : bool) (P Q : Z) : pyfloat :=
  if P =? 0 then S754_zero neg else
  let k0 := Z.log2 P - Z.log2 Q in
  let ge := if 0 <=? k0 then Q * 2 ^ k0 <=? P else Q <=? P * 2 ^ (- k0) in
  let k := if ge then k0 else k0 - 1 in
  let ex := Z.max (k - 52) (-1074) in
  let num := if 0 <=? ex then P else P * 2 ^ (- ex) in
  let den := if 0 <=? ex then Q * 2 ^ ex else Q in
  let q := num / den in
  let r := num mod den in
  let m := if 2 * r <? den then q
           else if den <? 2 * r then q + 1
           else if Z.even q then q else q + 1 in
  let m' := if m =? 2 ^ 53 then 2 ^ 52 else m in
  let ex' := if m =? 2 ^ 53 then ex + 1 else ex in
  if m' =? 0 then S754_zero neg
  else if 971 <? ex' then S754_infinity neg
  else S754_finite neg (Z.to_pos m') ex'.

(** [float(lexeme)] for a lexeme with digits [D] and decimal exponent [E]:
    the value [D * 10^E]. *)
Definition float_of_decimal (neg : bool) (D E : Z) : pyfloat :=
  if 0 <=? E then float_of_ratio neg (D * 10 ^ E) 1
  else float_of_ratio neg D (10 ^ (- E)).

(** ** JSON decoding: [json.loads] *)

(** The scanner works in two layers.  The first one cuts the text into
    tokens, one character at a time; a lexical fault becomes a [TFail]
    token at the place where it occurs, so that the second layer meets the
    faults in the order of the text. *)
Inductive token :=
| TLBrace | TRBrace | TLBracket | TRBracket | TColon | TComma
| TValue (v : json)
| TFail (e : exn).

Definition decode_error (msg : string) : exn := mkExn JSONDecodeError (py msg).

(** Where the scanner is inside a number literal: an optional minus sign,
    the integer digits (a single 0, or a non-zero digit and more digits),
    an optional point with one or more digits, an optional exponent (e or
    E, an optional sign, one or more digits). *)
Inductive num_phase :=
| NSign       (* after the minus sign *)
| NZero       (* after a leading 0 *)
| NInt        (* inside the integer digits *)
| NDot        (* after the point, no digit yet *)
| NFrac       (* inside the fraction digits *)
| NE          (* after e or E *)
| NESign      (* after the sign of the exponent *)
| NExp.       (* inside the exponent digits *)

Record num_acc := mkNum {
  n_neg : bool;      (* a minus sign was read *)
  n_digits : Z;      (* integer and fraction digits, read as one number *)
  n_count : nat;     (* how many integer digits *)
  n_scale : Z;       (* how many fraction digits *)
  n_float : bool;    (* a fraction or an exponent was read *)
  n_eneg : bool;     (* the exponent is negative *)
  n_exp : Z          (* the exponent digits *)
}.

Inductive lexer :=
| Idle
| InString (acc : pystr) (joinable : bool)
| InEscape (acc : pystr) (joinable : bool)
| InHex (acc : pystr) (joinable : bool) (todo : nat) (code : N)
| InNumber (ph : num_phase) (a : num_acc)
| InWord (expect : pystr) (v : json)
| Dead.

Definition is_quote (c : char) : bool := N.eqb c 34.

Definition is_ws (c : char) : bool :=
  is_chr c " " || N.eqb c 9 || N.eqb c 10 || N.eqb c 13.

Definition digit_of (c : char) : option Z :=
  if (48 <=? c)%N && (c <=? 57)%N then Some (Z.of_N c - 48) else None.

Definition hex_of (c : char) : option N :=
  if (48 <=? c)%N && (c <=? 57)%N then Some (c - 48)%N
  else if (97 <=? c)%N && (c <=? 102)%N then Some (c - 87)%N
  else if (65 <=? c)%N && (c <=? 70)%N then Some (c - 55)%N
  else None.

Definition is_high_surrogate (c : N) : bool := (55296 <=? c)%N && (c <=? 56319)%N.
Definition is_low_surrogate (c : N) : bool := (56320 <=? c)%N && (c <=? 57343)%N.
Definition join_surrogates (hi lo : N) : N :=
  (65536 + (hi - 55296) * 1024 + (lo - 56320))%N.

(** The value of a finished number literal. *)
Definition number_value `{Runtime} (a : num_acc) : token :=
  if n_float a then
    let e := if n_eneg a then - n_exp a else n_exp a in
    TValue (JFloat (float_of_decimal (n_neg a) (n_digits a) (e - n_scale a)))
  else if negb (Nat.eqb int_max_str_digits 0)
          && Nat.ltb int_max_str_digits (n_count a) then
    TFail (mkExn ValueError
             (py "Exceeds the limit for integer string conversion"))
  else TValue (JInt (if n_neg a then - n_digits a else n_digits a)).

Definition fail (msg : string) : list token * lexer :=
  ([TFail (decode_error msg)], Dead).

Definition push_digit (a : num_acc) (d : Z) (frac : bool) : num_acc :=
  mkNum (n_neg a) (n_digits a * 10 + d)
        (if frac then n_count a else S (n_count a))
        (if frac then n_scale a + 1 else n_scale a)
        (n_float a || frac) (n_eneg a) (n_exp a).

Definition push_exp (a : num_acc) (d : Z) : num_acc :=
  mkNum (n_neg a) (n_digits a) (n_count a) (n_scale a) true (n_eneg a)
        (n_exp a * 10 + d).

Definition set_eneg (a : num_acc) : num_acc :=
  mkNum (n_neg a) (n_digits a) (n_count a) (n_scale a) (n_float a) true
        (n_exp a).

Definition num0 (neg : bool) : num_acc := mkNum neg 0 0 0 false false 0.

(** A character met between two tokens. *)
Definition idle_step (c : char) : list token * lexer :=
  if is_ws c then ([], Idle)
  else if is_quote c then ([], InString [] false)
  else if is_chr c "{" then ([TLBrace], Idle)
  else if is_chr c "}" then ([TRBrace], Idle)
  else if is_chr c "[" then ([TLBracket], Idle)
  else if is_chr c "]" then ([TRBracket], Idle)
  else if is_chr c ":" then ([TColon], Idle)
  else if is_chr c "," then ([TComma], Idle)
  else if is_chr c "n" then ([], InWord (py "ull") JNull)
  else if is_chr c "t" then ([], InWord (py "rue") (JBool true))
  else if is_chr c "f" then ([], InWord (py "alse") (JBool false))
  else if is_chr c "N" then ([], InWord (py "aN") (JFloat S754_nan))
  else if is_chr c "I" then
    ([], InWord (py "nfinity") (JFloat (S754_infinity false)))
  else if is_chr c "-" then ([], InNumber NSign (num0 true))
  else if is_chr c "0" then ([], InNumber NZero (push_digit (num0 false) 0 false))
  else match digit_of c with
       | Some d => ([], InNumber NInt (push_digit (num0 false) d false))
       | None => fail "Expecting value"
       end.

(** The literal ends before [c]: emit its value and read [c] afresh. *)
Definition end_number `{Runtime} (a : num_acc) (c : char) : list token * lexer :=
  let '(out, st) := idle_step c in (number_value a :: out, st).

Definition number_step `{Runtime} (ph : num_phase) (a : num_acc) (c : char)
  : list token * lexer :=
  let exponent := is_chr c "e" || is_chr c "E" in
  match ph, digit_of c with
  | NSign, Some d =>
      if d =? 0 then ([], InNumber NZero (push_digit a 0 false))
      else ([], InNumber NInt (push_digit a d false))
  | NSign, None =>
      if is_chr c "I"
      then ([], InWord (py "nfinity") (JFloat (S754_infinity true)))
      else fail "Expecting value"
  | NInt, Some d => ([], InNumber NInt (push_digit a d false))
  | (NZero | NInt), None =>
      if is_chr c "." then ([], InNumber NDot a)
      else if exponent then ([], InNumber NE a)
      else end_number a c
  | NZero, Some _ => end_number a c
  | (NDot | NFrac), Some d => ([], InNumber NFrac (push_digit a d true))
  | NDot, None => fail "Extra data"
  | NFrac, None =>
      if exponent then ([], InNumber NE a) else end_number a c
  | NE, None =>
      if is_chr c "+" then ([], InNumber NESign a)
      else if is_chr c "-" then ([], InNumber NESign (set_eneg a))
      else fail "Extra data"
  | (NE | NESign | NExp), Some d => ([], InNumber NExp (push_exp a d))
  | NESign, None => fail "Extra data"
  | NExp, None => end_number a c
  end.

(** A finished [\uXXXX] escape with value [code]: two escapes that form a
    surrogate pair give one character. *)
Definition push_escape (acc : pystr) (joinable : bool) (code : N) : lexer :=
  match acc with
  | hi :: acc' =>
      if joinable && is_low_surrogate code
      then InString (join_surrogates hi code :: acc') false
      else InString (code :: acc) (is_high_surrogate code)
  | [] => InString [code] (is_high_surrogate code)
  end.

Definition escape_step (acc : pystr) (c : char) : list token * lexer :=
  let keep (x : N) := ([] : list token, InString (x :: acc) false) in
  if is_quote c then keep 34%N
  else if is_chr c "\" then keep 92%N
  else if is_chr c "/" then keep 47%N
  else if is_chr c "b" then keep 8%N
  else if is_chr c "f" then keep 12%N
  else if is_chr c "n" then keep 10%N
  else if is_chr c "r" then keep 13%N
  else if is_chr c "t" then keep 9%N
  else fail "Invalid \escape".

(** One character of the text.  The characters of a string are kept in
    reverse order in [acc]; [joinable] says that the last of them is a high
    surrogate written as an escape. *)
Definition lex_step `{Runtime} (st : lexer) (c : char) : list token * lexer :=
  match st with
  | Idle => idle_step c
  | InString acc joinable =>
      if is_quote c then ([TValue (JStr (rev acc))], Idle)
      else if is_chr c "\" then ([], InEscape acc joinable)
      else if (c <? 32)%N then fail "Invalid control character"
      else ([], InString (c :: acc) false)
  | InEscape acc joinable =>
      if is_chr c "u" then ([], InHex acc joinable 4 0%N)
      else escape_step acc c
  | InHex acc joinable todo code =>
      match hex_of c, todo with
      | Some h, S O => ([], push_escape acc joinable (code * 16 + h)%N)
      | Some h, S todo' => ([], InHex acc joinable todo' (code * 16 + h)%N)
      | _, _ => fail "Invalid \uXXXX escape"
      end
  | InNumber ph a => number_step ph a c
  | InWord expect v =>
      match expect with
      | [x] => if N.eqb c x then ([TValue v], Idle) else fail "Expecting value"
      | x :: rest => if N.eqb c x then ([], InWord rest v) else fail "Expecting value"
      | [] => fail "Expecting value"
      end
  | Dead => ([], Dead)
  end.

(** The end of the text. *)
Definition lex_end `{Runtime} (st : lexer) : list token :=
  match st with
  | Idle | Dead => []
  | InString _ _ | InEscape _ _ | InHex _ _ _ _ =>
      [TFail (decode_error "Unterminated string")]
  | InNumber (NZero | NInt | NFrac | NExp) a => [number_value a]
  | InNumber _ _ => [TFail (decode_error "Expecting value")]
  | InWord _ _ => [TFail (decode_error "Expecting value")]
  end.

Fixpoint lex `{Runtime} (st : lexer) (s : pystr) : list token :=
  match s with
  | [] => lex_end st
  | c :: s' => let '(out, st') := lex_step st c in out ++ lex st' s'
  end.

(** The second layer reads the tokens with a stack of the containers that
    are still open. *)
Inductive frame :=
| FArr (items : list json)            (* an array and its items, last first *)
| FObj (d : dict)                     (* an object waiting for a key *)
| FKey (d : dict) (k : pystr).        (* an object waiting for the value of k *)

Inductive expecting :=
| XValue        (* a value *)
| XFirstItem    (* a value or the end of the array *)
| XFirstKey     (* a key or the end of the object *)
| XKey          (* a key *)
| XColon        (* the colon after a key *)
| XNext         (* a comma or the end of the container *)
| XEnd (v : json).   (* the end of the text *)

Definition syntax_error {A} (msg : string) : result A := raise JSONDecodeError msg.

(** A finished value goes to the container that is open, or is the result. *)
Definition deliver (v : json) (stack : list frame) : result (expecting * list frame) :=
  match stack with
  | [] => Ok (XEnd v, [])
  | FArr items :: stack' => Ok (XNext, FArr (v :: items) :: stack')
  | FKey d k :: stack' => Ok (XNext, FObj (dict_set d k v) :: stack')
  | FObj _ :: _ => syntax_error "Expecting property name enclosed in double quotes"
  end.

(** The scanner enters a value one level below the open containers. *)
Definition enter_value `{Runtime} (t : token) (stack : list frame)
  : result (expecting * list frame) :=
  if Nat.ltb recursion_limit (S (List.length stack))
  then raise RecursionError "maximum recursion depth exceeded"
  else match t with
       | TValue v => deliver v stack
       | TLBracket => Ok (XFirstItem, FArr [] :: stack)
       | TLBrace => Ok (XFirstKey, FObj [] :: stack)
       | TFail e => Raise e
       | _ => syntax_error "Expecting value"
       end.

Definition read_key (t : token) (stack : list frame) : result (expecting * list frame) :=
  match t, stack with
  | TValue (JStr k), FObj d :: stack' => Ok (XColon, FKey d k :: stack')
  | TFail e, _ =>
      match exn_class e with
      | JSONDecodeError => Raise e
      | _ => syntax_error "Expecting property name enclosed in double quotes"
      end
  | _, _ => syntax_error "Expecting property name enclosed in double quotes"
  end.

Definition parse_step `{Runtime} (x : expecting) (stack : list frame) (t : token)
  : result (expecting * list frame) :=
  match x with
  | XValue => enter_value t stack
  | XFirstItem =>
      match t, stack with
      | TRBracket, FArr items :: stack' => deliver (JArray (rev items)) stack'
      | _, _ => enter_value t stack
      end
  | XFirstKey =>
      match t, stack with
      | TRBrace, FObj d :: stack' => deliver (JObject d) stack'
      | _, _ => read_key t stack
      end
  | XKey => read_key t stack
  | XColon =>
      match t with
      | TColon => Ok (XValue, stack)
      | _ => syntax_error "Expecting ':' delimiter"
      end
  | XNext =>
      match t, stack with
      | TComma, FArr _ :: _ => Ok (XValue, stack)
      | TRBracket, FArr items :: stack' => deliver (JArray (rev items)) stack'
      | TComma, FObj _ :: _ => Ok (XKey, stack)
      | TRBrace, FObj d :: stack' => deliver (JObject d) stack'
      | _, _ => syntax_error "Expecting ',' delimiter"
      end
  | XEnd _ => syntax_error "Extra data"
  end.

Fixpoint parse `{Runtime} (x : expecting) (stack : list frame) (ts : list token)
  : result json :=
  match ts with
  | [] =>
      match x with
      | XEnd v => Ok v
      | XValue | XFirstItem => syntax_error "Expecting value"
      | XFirstKey | XKey =>
          syntax_error "Expecting property name enclosed in double quotes"
      | XColon => syntax_error "Expecting ':' delimiter"
      | XNext => syntax_error "Expecting ',' delimiter"
      end
  | t :: ts' =>
      '(x', stack') <- parse_step x stack t ;;
      parse x' stack' ts'
  end.

(** [json.loads(s)] for a [str] argument. *)
Definition json_loads `{Runtime} (s : pystr) : result json :=
  parse XValue [] (lex Idle s).

(** ** Python operators the module applies to decoded values *)

Fixpoint starts_with (prefix s : pystr) : bool :=
  match prefix, s with
  | [], _ => true
  | x :: prefix', y :: s' => N.eqb x y && starts_with prefix' s'
  | _ :: _, [] => false
  end.

(** [needle in s] for two strings. *)
Fixpoint is_substring (needle s : pystr) : bool :=
  starts_with needle s ||
  match s with
  | [] => false
  | _ :: s' => is_substring needle s'
  end.

(** [needle in container] for a string [needle]: key membership in a dict,
    element membership in a list, substring in a string; the other values
    are not containers. *)
Definition py_contains (needle : pystr) (container : json) : result bool :=
  match container with
  | JObject d =>
      Ok (match dict_get needle d with Some _ => true | None => false end)
  | JArray items =>
      Ok (existsb (fun x => match x with
                            | JStr s => pystr_eqb needle s
                            | _ => false
                            end) items)
  | JStr s => Ok (is_substring needle s)
  | JNull | JBool _ | JInt _ | JFloat _ =>
      raise TypeError "argument is not iterable"
  end.

(** [container[key]] for a string [key]. *)
Definition py_getitem (container : json) (key : pystr) : result json :=
  match container with
  | JObject d =>
      match dict_get key d with
      | Some v => Ok v
      | None => Raise (mkExn KeyError key)
      end
  | JArray _ => raise TypeError "list indices must be integers or slices, not str"
  | JStr _ => raise TypeError "string indices must be integers, not 'str'"
  | JNull | JBool _ | JInt _ | JFloat _ =>
      raise TypeError "object is not subscriptable"
  end.

(** [str(n)] for an [int], which is also what an f-string puts for [{n}]:
    the decimal digits of [n], after a minus sign when [n] is negative.
    The interpreter refuses the conversion, with [ValueError], when [n] has
    more digits than [int_max_str_digits] (a limit that is [0], for no
    limit, or at least 640). *)
Definition str_of_int `{Runtime} (n : Z) : result pystr :=
  let text := py (NilZero.string_of_int (Z.to_int n)) in
  let digits := Nat.sub (List.length text) (if n <? 0 then 1%nat else 0%nat) in
  if negb (Nat.eqb int_max_str_digits 0) && Nat.ltb int_max_str_digits digits
  then raise ValueError "Exceeds the limit for integer string conversion"
  else Ok text.

(** ** Validation: how a pydantic model reads a decoded value *)

(** A validator turns a decoded value into a typed one or raises
    [ValidationError]. *)
Definition validator (A : Type) := json -> result A.

Definition invalid {A} (msg : string) : result A := raise ValidationError msg.

(** A fault inside field [k] is reported under the field's name. *)
Definition in_field {A} (k : pystr) (r : result A) : result A :=
  match r with
  | Ok a => Ok a
  | Raise e => Raise (mkExn (exn_class e) (k ++ py ": " ++ exn_str e))
  end.

Definition lax {A} (coerced : option A) (msg : string) : result A :=
  match coerced with
  | Some a => Ok a
  | None => invalid msg
  end.

(** [str]: a string and nothing else. *)
Definition validate_str : validator pystr := fun j =>
  match j with
  | JStr s => Ok s
  | _ => invalid "Input should be a valid string"
  end.

(** [bool]: a boolean, or a scalar the library coerces to one. *)
Definition validate_bool `{Runtime} : validator bool := fun j =>
  match j with
  | JBool b => Ok b
  | JInt _ | JFloat _ | JStr _ => lax (lax_bool j) "Input should be a valid boolean"
  | JNull | JArray _ | JObject _ => invalid "Input should be a valid boolean"
  end.

(** [int]: an integer, or a scalar the library coerces to one. *)
Definition validate_int `{Runtime} : validator Z := fun j =>
  match j with
  | JInt z => Ok z
  | JBool _ | JFloat _ | JStr _ => lax (lax_int j) "Input should be a valid integer"
  | JNull | JArray _ | JObject _ => invalid "Input should be a valid integer"
  end.

(** [float]: a float, or a scalar the library coerces to one. *)
Definition validate_float `{Runtime} : validator pyfloat := fun j =>
  match j with
  | JFloat f => Ok f
  | JInt _ | JBool _ | JStr _ => lax (lax_float j) "Input should be a valid number"
  | JNull | JArray _ | JObject _ => invalid "Input should be a valid number"
  end.

(** [dict]: any dict, kept as it is. *)
Definition validate_dict : validator dict := fun j =>
  match j with
  | JObject d => Ok d
  | _ => invalid "Input should be a valid dictionary"
  end.

(** [Optional[T]]: [None], or a [T]. *)
Definition validate_optional {A} (v : validator A) : validator (option A) := fun j =>
  match j with
  | JNull => Ok None
  | _ => x <- v j ;; Ok (Some x)
  end.

Fixpoint validate_items {A} (v : validator A) (i : nat) (items : list json)
  : result (list A) :=
  match items with
  | [] => Ok []
  | j :: items' =>
      x <- in_field (py (NilZero.string_of_uint (Nat.to_uint i))) (v j) ;;
      xs <- validate_items v (S i) items' ;;
      Ok (x :: xs)
  end.

(** [List[T]]: a list whose items are all [T]. *)
Definition validate_list {A} (v : validator A) : validator (list A) := fun j =>
  match j with
  | JArray items => validate_items v 0 items
  | _ => invalid "Input should be a valid list"
  end.

(** An enumeration with string values, or a [Literal] of strings: the value
    of one of the members, exactly. *)
Definition validate_enum {A} (value : A -> pystr) (members : list A) : validator A :=
  fun j =>
  match j with
  | JStr s =>
      match find (fun m => pystr_eqb s (value m)) members with
      | Some m => Ok m
      | None => invalid "Input should be one of the listed values"
      end
  | _ => invalid "Input should be one of the listed values"
  end.

(** A model is read from a dict. *)
Definition as_model : validator dict := fun j =>
  match j with
  | JObject d => Ok d
  | _ => invalid "Input should be a valid dictionary or object to extract fields from"
  end.

(** A field without a default: the key must be there. *)
Definition required {A} (d : dict) (k : string) (v : validator A) : result A :=
  match dict_get (py k) d with
  | Some j => in_field (py k) (v j)
  | None => in_field (py k) (invalid "Field required")
  end.

(** A field with a default: when the key is missing the default is taken
    as it is, otherwise the value is validated. *)
Definition with_default {A} (d : dict) (k : string) (v : validator A) (default : A)
  : result A :=
  match dict_get (py k) d with
  | Some j => in_field (py k) (v j)
  | None => Ok default
  end.

(** The common case [name: Optional[T] = None]. *)
Definition optional {A} (d : dict) (k : string) (v : validator A) : result (option A) :=
  with_default d k (validate_optional v) None.

(** The fields a model declares, with the models nested in them: what
    "modelled" means for a key of a decoded object. *)
Inductive shape :=
| Opaque                                     (* a scalar, an enumeration or a free-form dict *)
| Items (item : shape)                       (* [List[T]] *)
| Model (fields : list (string * shape)).    (* a model class and its fields *)

(** ** Client events *)

Module MediaChunk.
Record t := mk { mimeType : pystr; data : pystr }.

Definition model_validate : validator t := fun j =>
  d <- as_model j ;;
  mimeType <- required d "mimeType" validate_str ;;
  data <- required d "data" validate_str ;;
  Ok (mk mimeType data).
End MediaChunk.

Module FileData.
Record t := mk { mimeType : pystr; fileUri : pystr }.

Definition model_validate : validator t := fun j =>
  d <- as_model j ;;
  mimeType <- required d "mimeType" validate_str ;;
  fileUri <- required d "fileUri" validate_str ;;
  Ok (mk mimeType fileUri).
End FileData.

Module ContentPart.
Record t := mk {
  text : option pystr;
  inlineData : option MediaChunk.t;
  fileData : option FileData.t
}.

Definition model_validate : validator t := fun j =>
  d <- as_model j ;;
  text <- optional d "text" validate_str ;;
  inlineData <- optional d "inlineData" MediaChunk.model_validate ;;
  fileData <- optional d "fileData" FileData.model_validate ;;
  Ok (mk text inlineData fileData).

Definition count {A} (field : t -> option A) (p : t) : nat :=
  match field p with
  | Some _ => 1
  | None => 0
  end.

(** How many of the three fields are present. *)
Definition present (p : t) : nat :=
  (count text p + count inlineData p + count fileData p)%nat.
End ContentPart.

Module Turn.
(** [Literal["user", "model"]] *)
Inductive role_t := user | model.

Definition role_value (r : role_t) : pystr :=
  match r with
  | user => py "user"
  | model => py "model"
  end.

Definition validate_role : validator role_t :=
  validate_enum role_value [user; model].

Record t := mk { role : role_t; parts : list ContentPart.t }.

Definition model_validate : validator t := fun j =>
  d <- as_model j ;;
  role <- with_default d "role" validate_role user ;;
  parts <- required d "parts" (validate_list ContentPart.model_validate) ;;
  Ok (mk role parts).
End Turn.

Module StartSensitivity.
Inductive t := UNSPECIFIED | HIGH | LOW.

Definition value (m : t) : pystr :=
  match m with
  | UNSPECIFIED => py "START_SENSITIVITY_UNSPECIFIED"
  | HIGH => py "START_SENSITIVITY_HIGH"
  | LOW => py "START_SENSITIVITY_LOW"
  end.

Definition members : list t := [UNSPECIFIED; HIGH; LOW].
Definition validate : validator t := validate_enum value members.
End StartSensitivity.

Module EndSensitivity.
Inductive t := UNSPECIFIED | HIGH | LOW.

Definition value (m : t) : pystr :=
  match m with
  | UNSPECIFIED => py "END_SENSITIVITY_UNSPECIFIED"
  | HIGH => py "END_SENSITIVITY_HIGH"
  | LOW => py "END_SENSITIVITY_LOW"
  end.

Definition members : list t := [UNSPECIFIED; HIGH; LOW].
Definition validate : validator t := validate_enum value members.
End EndSensitivity.

Module AutomaticActivityDetection.
Record t := mk {
  disabled : option bool;
  start_of_speech_sensitivity : option StartSensitivity.t;
  prefix_padding_ms : option Z;
  end_of_speech_sensitivity : option EndSensitivity.t;
  silence_duration_ms : option Z
}.

Definition model_validate `{Runtime} : validator t := fun j =>
  d <- as_model j ;;
  disabled <- optional d "disabled" validate_bool ;;
  start_of_speech_sensitivity <-
    optional d "start_of_speech_sensitivity" StartSensitivity.validate ;;
  prefix_padding_ms <- optional d "prefix_padding_ms" validate_int ;;
  end_of_speech_sensitivity <-
    optional d "end_of_speech_sensitivity" EndSensitivity.validate ;;
  silence_duration_ms <- optional d "silence_duration_ms" validate_int ;;
  Ok (mk disabled start_of_speech_sensitivity prefix_padding_ms
         end_of_speech_sensitivity silence_duration_ms).
End AutomaticActivityDetection.

Module RealtimeInput.
Record t := mk { mediaChunks : list MediaChunk.t }.

Definition model_validate : validator t := fun j =>
  d <- as_model j ;;
  mediaChunks <- required d "mediaChunks" (validate_list MediaChunk.model_validate) ;;
  Ok (mk mediaChunks).
End RealtimeInput.

(** [base64.b64encode] and [base64.b64decode] on [bytes]. *)
Module base64.
Definition alphabet : list ascii :=
  list_ascii_of_string
    "ABCDEFGHIJKLMNOPQRSTUVWXYZabcdefghijklmnopqrstuvwxyz0123456789+/".

(** The character of a 6-bit group. *)
Definition enc6 (n : N) : byte :=
  byte_of_ascii (nth (N.to_nat n) alphabet "="%char).

(** The 6-bit group of a character of the alphabet. *)
Definition dec6 (b : byte) : option N :=
  let c := Byte.to_N b in
  if (65 <=? c)%N && (c <=? 90)%N then Some (c - 65)%N
  else if (97 <=? c)%N && (c <=? 122)%N then Some (c - 71)%N
  else if (48 <=? c)%N && (c <=? 57)%N then Some (c + 4)%N
  else if (c =? 43)%N then Some 62%N
  else if (c =? 47)%N then Some 63%N
  else None.

Definition pad : byte := "="%byte.

(** Three bytes give four characters; a last group of one or two bytes
    is padded with [=]. *)
Fixpoint b64encode (raw : list byte) : list byte :=
  match raw with
  | [] => []
  | [a] =>
      let n := (Byte.to_N a * 65536)%N in
      [enc6 (n / 262144); enc6 (n / 4096 mod 64); pad; pad]
  | [a; b] =>
      let n := (Byte.to_N a * 65536 + Byte.to_N b * 256)%N in
      [enc6 (n / 262144); enc6 (n / 4096 mod 64); enc6 (n / 64 mod 64); pad]
  | a :: b :: c :: rest =>
      let n := (Byte.to_N a * 65536 + Byte.to_N b * 256 + Byte.to_N c)%N in
      enc6 (n / 262144) :: enc6 (n / 4096 mod 64) :: enc6 (n / 64 mod 64)
        :: enc6 (n mod 64) :: b64encode rest
  end.

Definition byte_of (n : N) : byte :=
  match Byte.of_N (n mod 256) with
  | Some b => b
  | None => "000"%byte
  end.

(** The decoder of [binascii.a2b_base64] when it is not strict.  It reads
    one character at a time: [quad_pos] is the place in the current group
    of four, [leftchar] the bits of the group that are not yet written,
    [pads] the padding characters seen since the last data character.
    Characters outside the alphabet are skipped, and a padding that
    completes a group ends the decoding.  [None] is [binascii.Error]. *)
Fixpoint a2b_base64 (s : list byte) (quad_pos leftchar pads : N)
  : option (list byte) :=
  match s with
  | [] => if (quad_pos =? 0)%N then Some [] else None
  | ch :: rest =>
      if Byte.eqb ch pad then
        if (2 <=? quad_pos)%N then
          if (4 <=? quad_pos + (pads + 1))%N then Some []
          else a2b_base64 rest quad_pos leftchar (pads + 1)%N
        else a2b_base64 rest quad_pos leftchar pads
      else
        match dec6 ch with
        | None => a2b_base64 rest quad_pos leftchar pads
        | Some v =>
            match quad_pos with
            | 0%N => a2b_base64 rest 1%N v 0%N
            | 1%N =>
                option_map
                  (cons (byte_of (N.lor (N.shiftl leftchar 2) (N.shiftr v 4))))
                  (a2b_base64 rest 2%N (N.land v 15) 0%N)
            | 2%N =>
                option_map
                  (cons (byte_of (N.lor (N.shiftl leftchar 4) (N.shiftr v 2))))
                  (a2b_base64 rest 3%N (N.land v 3) 0%N)
            | _ =>
                option_map
                  (cons (byte_of (N.lor (N.shiftl leftchar 6) v)))
                  (a2b_base64 rest 0%N 0%N 0%N)
            end
        end
  end.

(** [base64.b64decode(s)] for a [bytes] argument. *)
Definition b64decode (s : list byte) : option (list byte) :=
  a2b_base64 s 0%N 0%N 0%N.

(** [bytes.decode("utf-8")] on the output of [b64encode], which is ASCII:
    one character per byte. *)
Definition decode_ascii (s : list byte) : pystr := List.map Byte.to_N s.

(** [str.encode("ascii")], as [b64decode] applies it to a [str]. *)
Fixpoint encode_ascii (s : pystr) : option (list byte) :=
  match s with
  | [] => Some []
  | c :: s' =>
      match Byte.of_N c, encode_ascii s' with
      | Some b, Some bs => if (c <? 128)%N then Some (b :: bs) else None
      | _, _ => None
      end
  end.

(** [base64.b64decode(s)] for a [str] argument. *)
Definition b64decode_str (s : pystr) : option (list byte) :=
  match encode_ascii s with
  | Some bs => b64decode bs
  | None => None
  end.
End base64.

Module AudioInputMessage.
Record t := mk { realtimeInput : RealtimeInput.t }.

Definition model_validate : validator t := fun j =>
  d <- as_model j ;;
  realtimeInput <- required d "realtimeInput" RealtimeInput.model_validate ;;
  Ok (mk realtimeInput).

Definition from_raw_audio `{Runtime} (raw_audio : list byte) (sample_rate : Z)
  : result t :=
  let data := base64.decode_ascii (base64.b64encode raw_audio) in
  rate <- str_of_int sample_rate ;;
  Ok (mk (RealtimeInput.mk [MediaChunk.mk (py "audio/pcm;rate=" ++ rate) data])).
End AudioInputMessage.

(** ** Grounding metadata models *)

Module SearchEntryPoint.
Record t := mk { renderedContent : option pystr }.

Definition model_validate : validator t := fun j =>
  d <- as_model j ;;
  renderedContent <- optional d "renderedContent" validate_str ;;
  Ok (mk renderedContent).

Definition fields : list (string * shape) :=
  [("renderedContent", Opaque)]%string.
End SearchEntryPoint.

Module WebSource.
Record t := mk { uri : option pystr; title : option pystr }.

Definition model_validate : validator t := fun j =>
  d <- as_model j ;;
  uri <- optional d "uri" validate_str ;;
  title <- optional d "title" validate_str ;;
  Ok (mk uri title).

Definition fields : list (string * shape) :=
  [("uri", Opaque); ("title", Opaque)]%string.
End WebSource.

Module GroundingChunk.
Record t := mk { web : option WebSource.t }.

Definition model_validate : validator t := fun j =>
  d <- as_model j ;;
  web <- optional d "web" WebSource.model_validate ;;
  Ok (mk web).

Definition fields : list (string * shape) :=
  [("web", Model WebSource.fields)]%string.
End GroundingChunk.

Module GroundingSegment.
Record t := mk {
  startIndex : option Z;
  endIndex : option Z;
  text : option pystr
}.

Definition model_validate `{Runtime} : validator t := fun j =>
  d <- as_model j ;;
  startIndex <- optional d "startIndex" validate_int ;;
  endIndex <- optional d "endIndex" validate_int ;;
  text <- optional d "text" validate_str ;;
  Ok (mk startIndex endIndex text).

Definition fields : list (string * shape) :=
  [("startIndex", Opaque); ("endIndex", Opaque); ("text", Opaque)]%string.
End GroundingSegment.

Module GroundingSupport.
Record t := mk {
  segment : option GroundingSegment.t;
  groundingChunkIndices : option (list Z);
  confidenceScores : option (list pyfloat)
}.

Definition model_validate `{Runtime} : validator t := fun j =>
  d <- as_model j ;;
  segment <- optional d "segment" GroundingSegment.model_validate ;;
  groundingChunkIndices <-
    optional d "groundingChunkIndices" (validate_list validate_int) ;;
  confidenceScores <-
    optional d "confidenceScores" (validate_list validate_float) ;;
  Ok (mk segment groundingChunkIndices confidenceScores).

Definition fields : list (string * shape) :=
  [("segment", Model GroundingSegment.fields);
   ("groundingChunkIndices", Opaque);
   ("confidenceScores", Opaque)]%string.
End GroundingSupport.

Module GroundingMetadata.
Record t := mk {
  searchEntryPoint : option SearchEntryPoint.t;
  groundingChunks : option (list GroundingChunk.t);
  groundingSupports : option (list GroundingSupport.t);
  webSearchQueries : option (list pystr)
}.

Definition model_validate `{Runtime} : validator t := fun j =>
  d <- as_model j ;;
  searchEntryPoint <-
    optional d "searchEntryPoint" SearchEntryPoint.model_validate ;;
  groundingChunks <-
    optional d "groundingChunks" (validate_list GroundingChunk.model_validate) ;;
  groundingSupports <-
    optional d "groundingSupports" (validate_list GroundingSupport.model_validate) ;;
  webSearchQueries <- optional d "webSearchQueries" (validate_list validate_str) ;;
  Ok (mk searchEntryPoint groundingChunks groundingSupports webSearchQueries).

Definition fields : list (string * shape) :=
  [("searchEntryPoint", Model SearchEntryPoint.fields);
   ("groundingChunks", Items (Model GroundingChunk.fields));
   ("groundingSupports", Items (Model GroundingSupport.fields));
   ("webSearchQueries", Opaque)]%string.
End GroundingMetadata.

(** ** Server events *)

Module SetupComplete.
Record t := mk { }.

Definition model_validate : validator t := fun j =>
  d <- as_model j ;;
  Ok mk.

Definition fields : list (string * shape) :=
  []%string.
End SetupComplete.

Module InlineData.
Record t := mk { mimeType : pystr; data : pystr }.

Definition model_validate : validator t := fun j =>
  d <- as_model j ;;
  mimeType <- required d "mimeType" validate_str ;;
  data <- required d "data" validate_str ;;
  Ok (mk mimeType data).

Definition fields : list (string * shape) :=
  [("mimeType", Opaque); ("data", Opaque)]%string.
End InlineData.

Module Part.
Record t := mk { inlineData : option InlineData.t; text : option pystr }.

Definition model_validate : validator t := fun j =>
  d <- as_model j ;;
  inlineData <- optional d "inlineData" InlineData.model_validate ;;
  text <- optional d "text" validate_str ;;
  Ok (mk inlineData text).

Definition fields : list (string * shape) :=
  [("inlineData", Model InlineData.fields); ("text", Opaque)]%string.
End Part.

Module ModelTurn.
Record t := mk { parts : list Part.t }.

Definition model_validate : validator t := fun j =>
  d <- as_model j ;;
  parts <- required d "parts" (validate_list Part.model_validate) ;;
  Ok (mk parts).

Definition fields : list (string * shape) :=
  [("parts", Items (Model Part.fields))]%string.
End ModelTurn.

Module BidiGenerateContentTranscription.
Record t := mk { text : pystr }.

Definition model_validate : validator t := fun j =>
  d <- as_model j ;;
  text <- required d "text" validate_str ;;
  Ok (mk text).

Definition fields : list (string * shape) :=
  [("text", Opaque)]%string.
End BidiGenerateContentTranscription.

Module ServerContent.
Record t := mk {
  modelTurn : option ModelTurn.t;
  interrupted : option bool;
  turnComplete : option bool;
  inputTranscription : option BidiGenerateContentTranscription.t;
  outputTranscription : option BidiGenerateContentTranscription.t;
  groundingMetadata : option GroundingMetadata.t
}.

Definition model_validate `{Runtime} : validator t := fun j =>
  d <- as_model j ;;
  modelTurn <- optional d "modelTurn" ModelTurn.model_validate ;;
  interrupted <- optional d "interrupted" validate_bool ;;
  turnComplete <- optional d "turnComplete" validate_bool ;;
  inputTranscription <-
    optional d "inputTranscription" BidiGenerateContentTranscription.model_validate ;;
  outputTranscription <-
    optional d "outputTranscription" BidiGenerateContentTranscription.model_validate ;;
  groundingMetadata <- optional d "groundingMetadata" GroundingMetadata.model_validate ;;
  Ok (mk modelTurn interrupted turnComplete inputTranscription
         outputTranscription groundingMetadata).

Definition fields : list (string * shape) :=
  [("modelTurn", Model ModelTurn.fields);
   ("interrupted", Opaque);
   ("turnComplete", Opaque);
   ("inputTranscription", Model BidiGenerateContentTranscription.fields);
   ("outputTranscription", Model BidiGenerateContentTranscription.fields);
   ("groundingMetadata", Model GroundingMetadata.fields)]%string.
End ServerContent.

Module FunctionCall.
Record t := mk { id : pystr; name : pystr; args : dict }.

Definition model_validate : validator t := fun j =>
  d <- as_model j ;;
  id <- required d "id" validate_str ;;
  name <- required d "name" validate_str ;;
  args <- required d "args" validate_dict ;;
  Ok (mk id name args).

Definition fields : list (string * shape) :=
  [("id", Opaque); ("name", Opaque); ("args", Opaque)]%string.
End FunctionCall.

Module ToolCall.
Record t := mk { functionCalls : list FunctionCall.t }.

Definition model_validate : validator t := fun j =>
  d <- as_model j ;;
  functionCalls <-
    required d "functionCalls" (validate_list FunctionCall.model_validate) ;;
  Ok (mk functionCalls).

Definition fields : list (string * shape) :=
  [("functionCalls", Items (Model FunctionCall.fields))]%string.
End ToolCall.

Module Modality.
Inductive t := UNSPECIFIED | TEXT | IMAGE | AUDIO | VIDEO.

Definition value (m : t) : pystr :=
  match m with
  | UNSPECIFIED => py "MODALITY_UNSPECIFIED"
  | TEXT => py "TEXT"
  | IMAGE => py "IMAGE"
  | AUDIO => py "AUDIO"
  | VIDEO => py "VIDEO"
  end.

Definition members : list t := [UNSPECIFIED; TEXT; IMAGE; AUDIO; VIDEO].
Definition validate : validator t := validate_enum value members.
End Modality.

Module ModalityTokenCount.
Record t := mk { modality : Modality.t; tokenCount : Z }.

Definition model_validate `{Runtime} : validator t := fun j =>
  d <- as_model j ;;
  modality <- required d "modality" Modality.validate ;;
  tokenCount <- required d "tokenCount" validate_int ;;
  Ok (mk modality tokenCount).

Definition fields : list (string * shape) :=
  [("modality", Opaque); ("tokenCount", Opaque)]%string.
End ModalityTokenCount.

Module UsageMetadata.
Record t := mk {
  promptTokenCount : option Z;
  cachedContentTokenCount : option Z;
  responseTokenCount : option Z;
  toolUsePromptTokenCount : option Z;
  thoughtsTokenCount : option Z;
  totalTokenCount : option Z;
  promptTokensDetails : option (list ModalityTokenCount.t);
  cacheTokensDetails : option (list ModalityTokenCount.t);
  responseTokensDetails : option (list ModalityTokenCount.t);
  toolUsePromptTokensDetails : option (list ModalityTokenCount.t)
}.

Definition details `{Runtime} : validator (list ModalityTokenCount.t) :=
  validate_list ModalityTokenCount.model_validate.

Definition model_validate `{Runtime} : validator t := fun j =>
  d <- as_model j ;;
  promptTokenCount <- optional d "promptTokenCount" validate_int ;;
  cachedContentTokenCount <- optional d "cachedContentTokenCount" validate_int ;;
  responseTokenCount <- optional d "responseTokenCount" validate_int ;;
  toolUsePromptTokenCount <- optional d "toolUsePromptTokenCount" validate_int ;;
  thoughtsTokenCount <- optional d "thoughtsTokenCount" validate_int ;;
  totalTokenCount <- optional d "totalTokenCount" validate_int ;;
  promptTokensDetails <- optional d "promptTokensDetails" details ;;
  cacheTokensDetails <- optional d "cacheTokensDetails" details ;;
  responseTokensDetails <- optional d "responseTokensDetails" details ;;
  toolUsePromptTokensDetails <- optional d "toolUsePromptTokensDetails" details ;;
  Ok (mk promptTokenCount cachedContentTokenCount responseTokenCount
         toolUsePromptTokenCount thoughtsTokenCount totalTokenCount
         promptTokensDetails cacheTokensDetails responseTokensDetails
         toolUsePromptTokensDetails).

Definition fields : list (string * shape) :=
  [("promptTokenCount", Opaque);
   ("cachedContentTokenCount", Opaque);
   ("responseTokenCount", Opaque);
   ("toolUsePromptTokenCount", Opaque);
   ("thoughtsTokenCount", Opaque);
   ("totalTokenCount", Opaque);
   ("promptTokensDetails", Items (Model ModalityTokenCount.fields));
   ("cacheTokensDetails", Items (Model ModalityTokenCount.fields));
   ("responseTokensDetails", Items (Model ModalityTokenCount.fields));
   ("toolUsePromptTokensDetails", Items (Model ModalityTokenCount.fields))]%string.
End UsageMetadata.

Module ServerEvent.
Record t := mk {
  setupComplete : option SetupComplete.t;
  serverContent : option ServerContent.t;
  toolCall : option ToolCall.t;
  usageMetadata : option UsageMetadata.t
}.

Definition model_validate `{Runtime} : validator t := fun j =>
  d <- as_model j ;;
  setupComplete <- optional d "setupComplete" SetupComplete.model_validate ;;
  serverContent <- optional d "serverContent" ServerContent.model_validate ;;
  toolCall <- optional d "toolCall" ToolCall.model_validate ;;
  usageMetadata <- optional d "usageMetadata" UsageMetadata.model_validate ;;
  Ok (mk setupComplete serverContent toolCall usageMetadata).

Definition fields : list (string * shape) :=
  [("setupComplete", Model SetupComplete.fields);
   ("serverContent", Model ServerContent.fields);
   ("toolCall", Model ToolCall.fields);
   ("usageMetadata", Model UsageMetadata.fields)]%string.
End ServerEvent.

(** ** The log sink *)

(** [logger.error(msg)] adds one record to the sink and returns (the
    logger formats nothing when it is given the message alone, and keeps
    the faults of its sinks to itself); the sink is the only state the
    module touches. *)
Inductive level := ERROR.
Definition sink := list (level * pystr).

Definition logger_error (msg : pystr) (log : sink) : sink := log ++ [(ERROR, msg)].

(** ** [parse_server_event] *)

(** How a call ends: it returns a value, or an exception leaves it. *)
Inductive outcome (A : Type) :=
| Returns (v : A)
| Propagates (e : exn).
Arguments Returns {A} v.
Arguments Propagates {A} e.

(** The body of the [try] block. *)
Definition try_body `{Runtime} (message_str : pystr) : result ServerEvent.t :=
  evt_dict <- json_loads message_str ;;
  has_content <- py_contains (py "serverContent") evt_dict ;;
  _ <- (if has_content : bool then
          server_content <- py_getitem evt_dict (py "serverContent") ;;
          has_grounding <- py_contains (py "groundingMetadata") server_content ;;
          Ok tt
        else Ok tt) ;;
  ServerEvent.model_validate evt_dict.

(** [message_str[:200] + "..." if len(message_str) > 200 else message_str] *)
Definition truncated_message (message_str : pystr) : pystr :=
  if Nat.ltb 200 (List.length message_str)
  then firstn 200 message_str ++ py "..."
  else message_str.

(** The [except Exception as e] block. *)
Definition handler (e : exn) (message_str : pystr) (log : sink) : sink :=
  let log := logger_error (py "Error parsing server event: " ++ exn_str e) log in
  logger_error (py "Raw message (truncated): " ++ truncated_message message_str) log.

Definition parse_server_event `{Runtime} (message_str : pystr) (log : sink)
  : outcome (option ServerEvent.t) * sink :=
  match try_body message_str with
  | Ok evt => (Returns (Some evt), log)
  | Raise e =>
      if is_Exception (exn_class e)
      then (Returns None, handler e message_str log)
      else (Propagates e, log)
  end.

(** ** Decoded values that differ only in fields that are not modelled *)

Inductive opt_rel {A} (R : A -> A -> Prop) : option A -> option A -> Prop :=
| opt_none : opt_rel R None None
| opt_some a b : R a b -> opt_rel R (Some a) (Some b).

(** [same_modelled s j j']: read as a value of shape [s], [j] and [j'] hold
    the same modelled data.  Objects read as a model have, under every key
    the model declares, either no value on both sides or values that are
    again the same; what they hold under other keys is free.  Everything
    that is not read as a model must be equal. *)
Inductive same_modelled : shape -> json -> json -> Prop :=
| same_value s j : same_modelled s j j
| same_items s l l' :
    Forall2 (same_modelled s) l l' ->
    same_modelled (Items s) (JArray l) (JArray l')
| same_model fs d d' :
    (forall k s, In (k, s) fs ->
       opt_rel (same_modelled s) (dict_get (py k) d) (dict_get (py k) d')) ->
    same_modelled (Model fs) (JObject d) (JObject d').

Module ContextWindowCompressionConfig.
Record t := mk { sliding_window : option bool; trigger_tokens : option Z }.

Definition model_validate `{Runtime} : validator t := fun j =>
  d <- as_model j ;;
  sliding_window <-
    with_default d "sliding_window" (validate_optional validate_bool) (Some true) ;;
  trigger_tokens <-
    with_default d "trigger_tokens" (validate_optional validate_int) None ;;
  Ok (mk sliding_window trigger_tokens).
End ContextWindowCompressionConfig.

(** ** Client events: content, session setup and video input *)

Module RealtimeInputConfig.
Record t := mk {
  automatic_activity_detection : option AutomaticActivityDetection.t
}.

Definition model_validate `{Runtime} : validator t := fun j =>
  d <- as_model j ;;
  automatic_activity_detection <-
    optional d "automatic_activity_detection" AutomaticActivityDetection.model_validate ;;
  Ok (mk automatic_activity_detection).
End RealtimeInputConfig.

Module ClientContent.
Record t := mk { turns : option (list Turn.t); turnComplete : bool }.

Definition model_validate `{Runtime} : validator t := fun j =>
  d <- as_model j ;;
  turns <- optional d "turns" (validate_list Turn.model_validate) ;;
  turnComplete <- with_default d "turnComplete" validate_bool false ;;
  Ok (mk turns turnComplete).
End ClientContent.

Module ClientContentMessage.
Record t := mk { clientContent : ClientContent.t }.

Definition model_validate `{Runtime} : validator t := fun j =>
  d <- as_model j ;;
  clientContent <- required d "clientContent" ClientContent.model_validate ;;
  Ok (mk clientContent).
End ClientContentMessage.

Module SystemInstruction.
Record t := mk { parts : list ContentPart.t }.

Definition model_validate : validator t := fun j =>
  d <- as_model j ;;
  parts <- required d "parts" (validate_list ContentPart.model_validate) ;;
  Ok (mk parts).
End SystemInstruction.

Module AudioTranscriptionConfig.
Record t := mk { }.

Definition model_validate : validator t := fun j =>
  d <- as_model j ;;
  Ok mk.
End AudioTranscriptionConfig.

Module Setup.
Record t := mk {
  model : pystr;
  system_instruction : option SystemInstruction.t;
  tools : option (list dict);
  generation_config : option dict;
  input_audio_transcription : option AudioTranscriptionConfig.t;
  output_audio_transcription : option AudioTranscriptionConfig.t;
  realtime_input_config : option RealtimeInputConfig.t
}.

Definition model_validate `{Runtime} : validator t := fun j =>
  d <- as_model j ;;
  model <- required d "model" validate_str ;;
  system_instruction <-
    optional d "system_instruction" SystemInstruction.model_validate ;;
  tools <- optional d "tools" (validate_list validate_dict) ;;
  generation_config <- optional d "generation_config" validate_dict ;;
  input_audio_transcription <-
    optional d "input_audio_transcription" AudioTranscriptionConfig.model_validate ;;
  output_audio_transcription <-
    optional d "output_audio_transcription" AudioTranscriptionConfig.model_validate ;;
  realtime_input_config <-
    optional d "realtime_input_config" RealtimeInputConfig.model_validate ;;
  Ok (mk model system_instruction tools generation_config
         input_audio_transcription output_audio_transcription
         realtime_input_config).
End Setup.

Module Config.
Record t := mk { setup : Setup.t }.

Definition model_validate `{Runtime} : validator t := fun j =>
  d <- as_model j ;;
  setup <- required d "setup" Setup.model_validate ;;
  Ok (mk setup).
End Config.

Module ServerContentInterrupted.
Record t := mk { interrupted : bool }.

Definition model_validate `{Runtime} : validator t := fun j =>
  d <- as_model j ;;
  interrupted <- required d "interrupted" validate_bool ;;
  Ok (mk interrupted).
End ServerContentInterrupted.

Module ServerContentTurnComplete.
Record t := mk { turnComplete : bool }.

Definition model_validate `{Runtime} : validator t := fun j =>
  d <- as_model j ;;
  turnComplete <- required d "turnComplete" validate_bool ;;
  Ok (mk turnComplete).
End ServerContentTurnComplete.

Module ImageRawFrame.
(** Modelled from the spec: the raw image frame of [pipecat.frames.frames],
    which is not among the sources; the specification describes it as a
    pixel buffer with a pixel format and dimensions, and the constructor
    below reads its attributes [format], [size] and [image]. *)
Record t := mk { image : list byte; size : Z * Z; format : pystr }.
End ImageRawFrame.

Module VideoInputMessage.
Record t := mk { realtimeInput : RealtimeInput.t }.

Definition model_validate : validator t := fun j =>
  d <- as_model j ;;
  realtimeInput <- required d "realtimeInput" RealtimeInput.model_validate ;;
  Ok (mk realtimeInput).

(** [encode_jpeg format size image] stands for the image library:
    [Image.frombytes(format, size, image).save(buffer, format="JPEG")]
    followed by [buffer.getvalue()].  It gives the bytes of the JPEG file
    or raises; the constructor does not catch what it raises. *)
Definition from_image_frame
  (encode_jpeg : pystr -> Z * Z -> list byte -> result (list byte))
  (frame : ImageRawFrame.t) : result t :=
  buffer <- encode_jpeg (ImageRawFrame.format frame) (ImageRawFrame.size frame)
                        (ImageRawFrame.image frame) ;;
  let data := base64.decode_ascii (base64.b64encode buffer) in
  Ok (mk (RealtimeInput.mk [MediaChunk.mk (py "image/jpeg") data])).
End VideoInputMessage.

(** ** A runtime for the examples *)

(** CPython's default limits, and coercions after the library's conversion
    table for booleans and integers: [0]/[1] and the usual words for a
    boolean, a boolean or a float without fraction for an integer, an
    integer or a boolean for a float.  The theorems below hold for every
    runtime; this one is used to run the code on concrete texts. *)
Definition lower (c : char) : char :=
  if (65 <=? c)%N && (c <=? 90)%N then (c + 32)%N else c.

Definition example_bool (j : json) : option bool :=
  match j with
  | JInt 0 => Some false
  | JInt 1 => Some true
  | JFloat (S754_zero _) => Some false
  | JFloat (S754_finite false 4503599627370496 (-52)) => Some true
  | JStr s =>
      let w := List.map lower s in
      if existsb (pystr_eqb w) (List.map py ["0"; "off"; "f"; "false"; "n"; "no"]%string)
      then Some false
      else if existsb (pystr_eqb w) (List.map py ["1"; "on"; "t"; "true"; "y"; "yes"]%string)
      then Some true
      else None
  | _ => None
  end.

Definition example_int (j : json) : option Z :=
  match j with
  | JBool b => Some (if b then 1 else 0)
  | JFloat (S754_zero _) => Some 0
  | JFloat (S754_finite neg m e) =>
      let v := if 0 <=? e then Z.pos m * 2 ^ e
               else if Z.pos m mod 2 ^ (- e) =? 0 then Z.pos m / 2 ^ (- e)
               else 0 in
      if v =? 0 then None else Some (if neg then - v else v)
  | _ => None
  end.

Definition example_float (j : json) : option pyfloat :=
  match j with
  | JBool b => Some (float_of_ratio false (if b then 1 else 0) 1)
  | JInt z =>
      match float_of_ratio (z <? 0) (Z.abs z) 1 with
      | S754_infinity _ => None
      | f => Some f
      end
  | _ => None
  end.

Definition example_runtime : Runtime := {|
  recursion_limit := 1000;
  int_max_str_digits := 4300;
  lax_int := example_int;
  lax_float := example_float;
  lax_bool := example_bool
|}.

(** A wire text written with ['] in the place of the double quote. *)
Definition wire (s : string) : pystr :=
  List.map (fun c => if N.eqb c 39 then 34%N else c) (py s).

(** * Notions used in the statements *)

(** [safe r]: if [r] is an exception, [except Exception] catches it. *)
Definition safe {A} (r : result A) : Prop :=
  forall e, r = Raise e -> is_Exception (exn_class e) = true.

Definition token_safe (t : token) : Prop :=
  match t with
  | TFail e => is_Exception (exn_class e) = true
  | _ => True
  end.

(** A decoding that ends in an exception. *)
Definition rejected {A} (r : result A) : Prop := exists e, r = Raise e.

(** [j] is the wire string of one of the members of an enumeration. *)
Definition names_member {A} (value : A -> pystr) (members : list A) (j : json) : Prop :=
  exists m, In m members /\ j = JStr (value m).

(** [v] reads the same from two values with the same modelled data. *)
Definition respects {A} (s : shape) (v : validator A) : Prop :=
  forall j j', same_modelled s j j' -> v j = v j'.

(** A key that is missing, or holds [null]. *)
Definition absent_or_null (o : option json) : Prop := o = None \/ o = Some JNull.

(** The 6-bit groups. *)
Definition sextets : list N := List.map N.of_nat (seq 0 64).

(** The character of a decimal digit. *)
Definition digit_char (d : Z) : char := Z.to_N (48 + d).

(** The number that a sequence of decimal digits, most significant first,
    denotes. *)
Definition digits_value (ds : list Z) : Z :=
  fold_left (fun acc d => acc * 10 + d) ds 0.

(** [s] is the decimal rendering of [n]: a minus sign when [n] is negative,
    then the decimal digits of the absolute value of [n], at least one and
    with no leading zero (zero is the single digit [0]). *)
Definition decimal_rendering (n : Z) (s : pystr) : Prop :=
  exists ds,
    s = (if n <? 0 then [45%N] else []) ++ List.map digit_char ds
    /\ ds <> []
    /\ Forall (fun d => 0 <= d <= 9) ds
    /\ (forall ds', ds = 0 :: ds' -> ds' = [])
    /\ digits_value ds = Z.abs n.

(** [n] has no more decimal digits than the interpreter converts. *)
Definition within_digit_limit `{Runtime} (n : Z) : Prop :=
  int_max_str_digits = 0%nat \/ Z.abs n < 10 ^ Z.of_nat int_max_str_digits.

(** The digits of a decimal numeral of the standard library. *)
Fixpoint uint_digits (u : Decimal.uint) : list Z :=
  match u with
  | Decimal.Nil => []
  | Decimal.D0 u => 0 :: uint_digits u
  | Decimal.D1 u => 1 :: uint_digits u
  | Decimal.D2 u => 2 :: uint_digits u
  | Decimal.D3 u => 3 :: uint_digits u
  | Decimal.D4 u => 4 :: uint_digits u
  | Decimal.D5 u => 5 :: uint_digits u
  | Decimal.D6 u => 6 :: uint_digits u
  | Decimal.D7 u => 7 :: uint_digits u
  | Decimal.D8 u => 8 :: uint_digits u
  | Decimal.D9 u => 9 :: uint_digits u
  end.

(** The interpreter stopped [r] at one of its limits: the recursion depth
    or the number of digits of an integer. *)
Definition hits_limit {A} (r : result A) : Prop :=
  exists e, r = Raise e
            /\ (exn_class e = RecursionError \/ exn_class e = ValueError).

(** The tokens that two scans of one text give under two digit limits: the
    same token, unless one scan refused an integer literal that the other
    one converted. *)
Inductive same_token : token -> token -> Prop :=
| same_token_refl t : same_token t t
| same_token_left msg z :
    same_token (TFail (mkExn ValueError msg)) (TValue (JInt z))
| same_token_right msg z :
    same_token (TValue (JInt z)) (TFail (mkExn ValueError msg)).

(** What an object holds under the key of a field [Optional[T] = None]
    gives the field [x]: the key is missing or holds [null] and the field
    is absent, or it holds a value that [T] accepts. *)
Definition optional_field {A} (v : validator A) (o : option json) (x : option A) : Prop :=
  (absent_or_null o /\ x = None)
  \/ exists j y, o = Some j /\ j <> JNull /\ v j = Ok y /\ x = Some y.


(** * Properties *)

(** ** Which exceptions the code can raise *)

Create HintDb safe discriminated.

Lemma safe_Ok {A} (a : A) : safe (Ok a).
Proof. intros e He. discriminate. Qed.

Lemma safe_Raise {A} (e : exn) :
  is_Exception (exn_class e) = true -> safe (@Raise A e).
Proof. intros He e' [= <-]. exact He. Qed.

Lemma safe_raise {A} (c : pyclass) (msg : string) :
  is_Exception c = true -> safe (@raise A c msg).
Proof. intros Hc. apply safe_Raise. exact Hc. Qed.

Lemma safe_invalid {A} (msg : string) : safe (@invalid A msg).
Proof. apply safe_raise. reflexivity. Qed.

Lemma safe_syntax_error {A} (msg : string) : safe (@syntax_error A msg).
Proof. apply safe_raise. reflexivity. Qed.

Lemma safe_bind {A B} (r : result A) (k : A -> result B) :
  safe r -> (forall a, safe (k a)) -> safe (bind r k).
Proof.
  intros Hr Hk. destruct r as [a | e]; simpl.
  - apply Hk.
  - apply safe_Raise, Hr. reflexivity.
Qed.

Lemma safe_in_field {A} (k : pystr) (r : result A) : safe r -> safe (in_field k r).
Proof.
  intros Hr. destruct r as [a | e]; simpl.
  - apply safe_Ok.
  - apply safe_Raise. simpl. apply Hr. reflexivity.
Qed.

Lemma safe_lax {A} (o : option A) (msg : string) : safe (lax o msg).
Proof. destruct o; [apply safe_Ok | apply safe_invalid]. Qed.

#[local] Hint Resolve safe_Ok safe_invalid safe_syntax_error safe_in_field
  safe_lax : safe.

Ltac safe_cases :=
  repeat match goal with
         | |- safe (bind _ _) => apply safe_bind; [ | intro ]
         | |- safe (match ?x with _ => _ end) => destruct x
         | |- safe (if ?b then _ else _) => destruct b
         end;
  auto with safe.

Section Safety.
Context `{Runtime}.

(** *** The scanner *)

Lemma number_value_safe (a : num_acc) : token_safe (number_value a).
Proof.
  unfold number_value.
  destruct (n_float a); [exact I | ].
  destruct (_ && _); simpl; auto.
Qed.

Lemma fail_safe (msg : string) : Forall token_safe (fst (fail msg)).
Proof. repeat constructor. Qed.

Lemma idle_step_safe (c : char) : Forall token_safe (fst (idle_step c)).
Proof.
  unfold idle_step.
  repeat match goal with
         | |- context [if ?b then _ else _] => destruct b
         | |- context [match digit_of ?c with _ => _ end] => destruct (digit_of c)
         end; simpl; repeat constructor.
Qed.

Lemma end_number_safe (a : num_acc) (c : char) :
  Forall token_safe (fst (end_number a c)).
Proof.
  unfold end_number. pose proof (idle_step_safe c) as Hc.
  destruct (idle_step c) as [out st]. simpl in *.
  constructor; [apply number_value_safe | exact Hc].
Qed.

Lemma number_step_safe (ph : num_phase) (a : num_acc) (c : char) :
  Forall token_safe (fst (number_step ph a c)).
Proof.
  unfold number_step.
  destruct ph, (digit_of c);
    repeat match goal with
           | |- context [if ?b then _ else _] => destruct b
           end;
    first [ apply end_number_safe | simpl; repeat constructor ].
Qed.

Lemma lex_step_safe (st : lexer) (c : char) :
  Forall token_safe (fst (lex_step st c)).
Proof.
  destruct st; simpl.
  - apply idle_step_safe.
  - repeat match goal with
           | |- context [if ?b then _ else _] => destruct b
           end; simpl; repeat constructor.
  - destruct (is_chr c "u"); [constructor | ].
    unfold escape_step.
    repeat match goal with
           | |- context [if ?b then _ else _] => destruct b
           end; simpl; repeat constructor.
  - destruct (hex_of c); [ | repeat constructor ].
    destruct todo as [ | [ | todo ] ]; simpl; repeat constructor.
  - apply number_step_safe.
  - destruct expect as [ | x [ | y rest ] ];
      repeat match goal with
             | |- context [if ?b then _ else _] => destruct b
             end; simpl; repeat constructor.
  - constructor.
Qed.

Lemma lex_end_safe (st : lexer) : Forall token_safe (lex_end st).
Proof.
  destruct st; simpl; repeat constructor.
  destruct ph; repeat constructor; apply number_value_safe.
Qed.

Lemma lex_safe (s : pystr) : forall st, Forall token_safe (lex st s).
Proof.
  induction s as [ | c s IH ]; intros st; simpl.
  - apply lex_end_safe.
  - pose proof (lex_step_safe st c) as Hc.
    destruct (lex_step st c) as [out st']. simpl in Hc.
    apply Forall_app. split; [exact Hc | apply IH].
Qed.

(** *** The parser *)

Lemma deliver_safe (v : json) (stack : list frame) : safe (deliver v stack).
Proof. unfold deliver. safe_cases. Qed.

#[local] Hint Resolve deliver_safe : safe.

Lemma enter_value_safe (t : token) (stack : list frame) :
  token_safe t -> safe (enter_value t stack).
Proof.
  intros Ht. unfold enter_value.
  destruct (Nat.ltb _ _); [apply safe_raise; reflexivity | ].
  destruct t; auto with safe. apply safe_Raise. exact Ht.
Qed.

Lemma read_key_safe (t : token) (stack : list frame) : safe (read_key t stack).
Proof.
  unfold read_key.
  destruct t as [ | | | | | | v | e ].
  1-6: auto with safe.
  - destruct v; auto with safe. destruct stack as [ | [] ? ]; auto with safe.
  - destruct (exn_class e) eqn:He; auto with safe.
    apply safe_Raise. rewrite He. reflexivity.
Qed.

Lemma parse_step_safe (x : expecting) (stack : list frame) (t : token) :
  token_safe t -> safe (parse_step x stack t).
Proof.
  intros Ht. pose proof (enter_value_safe t stack Ht) as Hv.
  pose proof (read_key_safe t stack) as Hk.
  destruct x; simpl; auto with safe.
  - destruct t; auto. destruct stack as [ | [] ? ]; auto with safe.
  - destruct t; auto. destruct stack as [ | [] ? ]; auto with safe.
  - destruct t; auto with safe.
  - destruct t; auto with safe; destruct stack as [ | [] ? ]; auto with safe.
Qed.

Lemma parse_safe (ts : list token) :
  Forall token_safe ts -> forall x stack, safe (parse x stack ts).
Proof.
  induction 1 as [ | t ts Ht Hts IH ]; intros x stack; simpl.
  - destruct x; auto with safe.
  - apply safe_bind; [apply parse_step_safe; exact Ht | ].
    intros [x' stack']. apply IH.
Qed.

Lemma json_loads_safe (s : pystr) : safe (json_loads s).
Proof. apply parse_safe, lex_safe. Qed.
End Safety.

(** *** Python operators and validators *)

Lemma py_contains_safe (needle : pystr) (c : json) : safe (py_contains needle c).
Proof. destruct c; simpl; auto with safe; apply safe_raise; reflexivity. Qed.

Lemma py_getitem_safe (c : json) (key : pystr) : safe (py_getitem c key).
Proof.
  destruct c; simpl; try (apply safe_raise; reflexivity).
  destruct (dict_get key fields); [apply safe_Ok | apply safe_Raise; reflexivity].
Qed.

Lemma validate_str_safe j : safe (validate_str j).
Proof. destruct j; simpl; auto with safe. Qed.

Lemma validate_dict_safe j : safe (validate_dict j).
Proof. destruct j; simpl; auto with safe. Qed.

Lemma as_model_safe j : safe (as_model j).
Proof. destruct j; simpl; auto with safe. Qed.

Lemma validate_bool_safe `{Runtime} j : safe (validate_bool j).
Proof. destruct j; simpl; auto with safe. Qed.

Lemma validate_int_safe `{Runtime} j : safe (validate_int j).
Proof. destruct j; simpl; auto with safe. Qed.

Lemma validate_float_safe `{Runtime} j : safe (validate_float j).
Proof. destruct j; simpl; auto with safe. Qed.

Lemma validate_enum_safe {A} (value : A -> pystr) members j :
  safe (validate_enum value members j).
Proof. unfold validate_enum. safe_cases. Qed.

Lemma validate_optional_safe {A} (v : validator A) :
  (forall j, safe (v j)) -> forall j, safe (validate_optional v j).
Proof. intros Hv j. destruct j; simpl; safe_cases. Qed.

Lemma validate_items_safe {A} (v : validator A) :
  (forall j, safe (v j)) -> forall items i, safe (validate_items v i items).
Proof.
  intros Hv items. induction items as [ | j items IH ]; intros i; simpl; safe_cases.
Qed.

Lemma validate_list_safe {A} (v : validator A) :
  (forall j, safe (v j)) -> forall j, safe (validate_list v j).
Proof.
  intros Hv j. destruct j; simpl; auto with safe. apply validate_items_safe, Hv.
Qed.

Lemma required_safe {A} d k (v : validator A) :
  (forall j, safe (v j)) -> safe (required d k v).
Proof. intros Hv. unfold required. safe_cases. Qed.

Lemma with_default_safe {A} d k (v : validator A) dflt :
  (forall j, safe (v j)) -> safe (with_default d k v dflt).
Proof. intros Hv. unfold with_default. safe_cases. Qed.

Lemma optional_safe {A} d k (v : validator A) :
  (forall j, safe (v j)) -> safe (optional d k v).
Proof. intros Hv. apply with_default_safe, validate_optional_safe, Hv. Qed.

#[local] Hint Resolve validate_str_safe validate_dict_safe as_model_safe
  validate_bool_safe validate_int_safe validate_float_safe validate_enum_safe
  validate_optional_safe validate_list_safe required_safe with_default_safe
  optional_safe : safe.

Section ModelSafety.
Context `{Runtime}.

Lemma SetupComplete_safe j : safe (SetupComplete.model_validate j).
Proof. unfold SetupComplete.model_validate. safe_cases. Qed.

Lemma InlineData_safe j : safe (InlineData.model_validate j).
Proof. unfold InlineData.model_validate. safe_cases. Qed.
#[local] Hint Resolve InlineData_safe : safe.

Lemma Part_safe j : safe (Part.model_validate j).
Proof. unfold Part.model_validate. safe_cases. Qed.
#[local] Hint Resolve Part_safe : safe.

Lemma ModelTurn_safe j : safe (ModelTurn.model_validate j).
Proof. unfold ModelTurn.model_validate. safe_cases. Qed.

Lemma Transcription_safe j : safe (BidiGenerateContentTranscription.model_validate j).
Proof. unfold BidiGenerateContentTranscription.model_validate. safe_cases. Qed.

Lemma SearchEntryPoint_safe j : safe (SearchEntryPoint.model_validate j).
Proof. unfold SearchEntryPoint.model_validate. safe_cases. Qed.

Lemma WebSource_safe j : safe (WebSource.model_validate j).
Proof. unfold WebSource.model_validate. safe_cases. Qed.
#[local] Hint Resolve WebSource_safe : safe.

Lemma GroundingChunk_safe j : safe (GroundingChunk.model_validate j).
Proof. unfold GroundingChunk.model_validate. safe_cases. Qed.

Lemma GroundingSegment_safe j : safe (GroundingSegment.model_validate j).
Proof. unfold GroundingSegment.model_validate. safe_cases. Qed.
#[local] Hint Resolve GroundingSegment_safe : safe.

Lemma GroundingSupport_safe j : safe (GroundingSupport.model_validate j).
Proof. unfold GroundingSupport.model_validate. safe_cases. Qed.
#[local] Hint Resolve SearchEntryPoint_safe GroundingChunk_safe
  GroundingSupport_safe : safe.

Lemma GroundingMetadata_safe j : safe (GroundingMetadata.model_validate j).
Proof. unfold GroundingMetadata.model_validate. safe_cases. Qed.
#[local] Hint Resolve ModelTurn_safe Transcription_safe
  GroundingMetadata_safe : safe.

Lemma ServerContent_safe j : safe (ServerContent.model_validate j).
Proof. unfold ServerContent.model_validate. safe_cases. Qed.

Lemma FunctionCall_safe j : safe (FunctionCall.model_validate j).
Proof. unfold FunctionCall.model_validate. safe_cases. Qed.
#[local] Hint Resolve FunctionCall_safe : safe.

Lemma ToolCall_safe j : safe (ToolCall.model_validate j).
Proof. unfold ToolCall.model_validate. safe_cases. Qed.

Lemma ModalityTokenCount_safe j : safe (ModalityTokenCount.model_validate j).
Proof.
  unfold ModalityTokenCount.model_validate, Modality.validate. safe_cases.
Qed.
#[local] Hint Resolve ModalityTokenCount_safe : safe.

Lemma UsageMetadata_safe j : safe (UsageMetadata.model_validate j).
Proof.
  unfold UsageMetadata.model_validate, UsageMetadata.details. safe_cases.
Qed.
#[local] Hint Resolve SetupComplete_safe ServerContent_safe ToolCall_safe
  UsageMetadata_safe : safe.

Lemma ServerEvent_safe j : safe (ServerEvent.model_validate j).
Proof. unfold ServerEvent.model_validate. safe_cases. Qed.

(** Whatever the [try] block raises derives from [Exception]. *)
Lemma try_body_safe (message_str : pystr) : safe (try_body message_str).
Proof.
  unfold try_body.
  apply safe_bind; [apply json_loads_safe | intros evt_dict].
  apply safe_bind; [apply py_contains_safe | intros has_content].
  apply safe_bind; [ | intros _; apply ServerEvent_safe ].
  destruct has_content; [ | apply safe_Ok ].
  apply safe_bind; [apply py_getitem_safe | intros server_content].
  apply safe_bind; [apply py_contains_safe | intros ?; apply safe_Ok].
Qed.
End ModelSafety.

(** ** [parse_server_event]: results and log records *)

(** C1. For every text, [parse_server_event] returns: either the event
    that was decoded, with the log untouched, or [None] after the two
    records of the [except] block.  No exception leaves the call, whatever
    the text is: a text that is not JSON, a JSON value that is not an
    object, an object that does not fit the models. *)
Theorem parse_server_event_total `{Runtime} (message_str : pystr) (log : sink) :
  (exists evt, parse_server_event message_str log = (Returns (Some evt), log))
  \/ (exists e, parse_server_event message_str log
                = (Returns None, handler e message_str log)).
Proof.
  unfold parse_server_event.
  pose proof (try_body_safe message_str) as Hsafe.
  destruct (try_body message_str) as [evt | e].
  - left. exists evt. reflexivity.
  - right. exists e. rewrite (Hsafe e eq_refl). reflexivity.
Qed.

(** C4. When [parse_server_event] fails, the second record it logs holds
    an excerpt of the raw text: its first 200 characters followed by
    ["..."] when the text is longer than 200 characters, and the whole
    text, with nothing appended, when it is not. *)
Theorem raw_message_is_truncated `{Runtime} (message_str : pystr) (log : sink) :
  fst (parse_server_event message_str log) = Returns None ->
  exists description excerpt,
    snd (parse_server_event message_str log)
    = log ++ [(ERROR, py "Error parsing server event: " ++ description);
              (ERROR, py "Raw message (truncated): " ++ excerpt)]
    /\ (200 < List.length message_str ->
        excerpt = firstn 200 message_str ++ py "...")%nat
    /\ (List.length message_str <= 200 -> excerpt = message_str)%nat.
Proof.
  unfold parse_server_event.
  pose proof (try_body_safe message_str) as Hsafe.
  destruct (try_body message_str) as [evt | e]; [discriminate | ].
  rewrite (Hsafe e eq_refl). intros _.
  exists (exn_str e), (truncated_message message_str).
  simpl. unfold handler, logger_error.
  rewrite <- app_assoc. split; [reflexivity | ].
  unfold truncated_message.
  destruct (Nat.ltb_spec 200 (List.length message_str)); split; intros; try lia;
    reflexivity.
Qed.

(** A text of 209 characters that is not JSON. *)
Lemma raw_message_is_truncated_witness :
  let text := py "{not json" ++ repeat 120%N 200 in
  fst (@parse_server_event example_runtime text []) = Returns None
  /\ exists description excerpt,
       snd (@parse_server_event example_runtime text [])
       = [] ++ [(ERROR, py "Error parsing server event: " ++ description);
                (ERROR, py "Raw message (truncated): " ++ excerpt)]
       /\ (200 < List.length text -> excerpt = firstn 200 text ++ py "...")%nat
       /\ (List.length text <= 200 -> excerpt = text)%nat.
Proof.
  intros text.
  assert (Hfail : fst (@parse_server_event example_runtime text []) = Returns None)
    by (vm_compute; reflexivity).
  split; [exact Hfail | ].
  exact (@raw_message_is_truncated example_runtime text [] Hfail).
Defined.

(** ** Two calls in two states of the interpreter *)

Section TwoRuntimes.
Variables R1 R2 : Runtime.

Lemma number_value_same (a : num_acc) :
  same_token (@number_value R1 a) (@number_value R2 a).
Proof.
  unfold number_value. destruct (n_float a); [constructor | ].
  destruct (_ && _), (_ && _); constructor.
Qed.

Lemma same_tokens_refl (ts : list token) : Forall2 same_token ts ts.
Proof. induction ts; constructor; [constructor | assumption]. Qed.

Lemma end_number_same (a : num_acc) (c : char) :
  Forall2 same_token (fst (@end_number R1 a c)) (fst (@end_number R2 a c))
  /\ snd (@end_number R1 a c) = snd (@end_number R2 a c).
Proof.
  unfold end_number. destruct (idle_step c) as [out st]. simpl.
  split; [ | reflexivity ].
  constructor; [apply number_value_same | apply same_tokens_refl].
Qed.

Lemma refl_same (p : list token * lexer) :
  Forall2 same_token (fst p) (fst p) /\ snd p = snd p.
Proof. split; [apply same_tokens_refl | reflexivity]. Qed.

Lemma number_step_same (ph : num_phase) (a : num_acc) (c : char) :
  Forall2 same_token (fst (@number_step R1 ph a c)) (fst (@number_step R2 ph a c))
  /\ snd (@number_step R1 ph a c) = snd (@number_step R2 ph a c).
Proof.
  unfold number_step.
  destruct ph, (digit_of c);
    repeat match goal with
           | |- context [if ?b then _ else _] => destruct b
           end;
    first [ apply end_number_same | apply refl_same ].
Qed.

Lemma lex_step_same (st : lexer) (c : char) :
  Forall2 same_token (fst (@lex_step R1 st c)) (fst (@lex_step R2 st c))
  /\ snd (@lex_step R1 st c) = snd (@lex_step R2 st c).
Proof.
  destruct st; try apply refl_same. apply number_step_same.
Qed.

Lemma lex_end_same (st : lexer) :
  Forall2 same_token (@lex_end R1 st) (@lex_end R2 st).
Proof.
  destruct st; try apply same_tokens_refl.
  destruct ph; simpl; repeat constructor; apply number_value_same.
Qed.

Lemma lex_same (s : pystr) :
  forall st, Forall2 same_token (@lex R1 st s) (@lex R2 st s).
Proof.
  induction s as [ | c s IH ]; intros st; simpl.
  - apply lex_end_same.
  - destruct (lex_step_same st c) as [Hout Hst].
    destruct (@lex_step R1 st c) as [out1 st1], (@lex_step R2 st c) as [out2 st2].
    simpl in *. subst st2. apply Forall2_app; [exact Hout | apply IH].
Qed.

Lemma hits_limit_bind {A B} (r : result A) (k : A -> result B) :
  hits_limit r -> hits_limit (bind r k).
Proof. intros (e & -> & He). exists e. split; [reflexivity | exact He]. Qed.

(** Entering a value: the recursion check, then a step that does not look
    at the runtime. *)
Lemma enter_value_same (t : token) (stack : list frame) :
  hits_limit (@enter_value R1 t stack) \/ hits_limit (@enter_value R2 t stack)
  \/ @enter_value R1 t stack = @enter_value R2 t stack.
Proof.
  unfold enter_value.
  destruct (Nat.ltb (@recursion_limit R1) _).
  - left. eexists. split; [reflexivity | left; reflexivity].
  - destruct (Nat.ltb (@recursion_limit R2) _).
    + right. left. eexists. split; [reflexivity | left; reflexivity].
    + right. right. reflexivity.
Qed.

Lemma enter_value_refused (R : Runtime) (msg : pystr) (stack : list frame) :
  hits_limit (@enter_value R (TFail (mkExn ValueError msg)) stack).
Proof.
  unfold enter_value. destruct (Nat.ltb _ _).
  - eexists. split; [reflexivity | left; reflexivity].
  - eexists. split; [reflexivity | right; reflexivity].
Qed.

Lemma parse_step_same (t1 t2 : token) (x : expecting) (stack : list frame) :
  same_token t1 t2 ->
  hits_limit (@parse_step R1 x stack t1) \/ hits_limit (@parse_step R2 x stack t2)
  \/ @parse_step R1 x stack t1 = @parse_step R2 x stack t2.
Proof.
  intros [t | msg z | msg z].
  - pose proof (enter_value_same t stack) as Hv.
    destruct x; simpl; auto.
    destruct t; auto. destruct stack as [ | [] ? ]; auto.
  - pose proof (enter_value_refused R1 msg stack) as Hv.
    destruct x; simpl; auto; destruct stack as [ | [] ? ]; auto.
  - pose proof (enter_value_refused R2 msg stack) as Hv.
    destruct x; simpl; auto; destruct stack as [ | [] ? ]; auto.
Qed.

Lemma parse_same (ts1 ts2 : list token) :
  Forall2 same_token ts1 ts2 ->
  forall x stack,
    hits_limit (@parse R1 x stack ts1) \/ hits_limit (@parse R2 x stack ts2)
    \/ @parse R1 x stack ts1 = @parse R2 x stack ts2.
Proof.
  induction 1 as [ | t1 t2 ts1 ts2 Ht Hts IH ]; intros x stack.
  - right. right. reflexivity.
  - cbn [parse].
    destruct (parse_step_same x stack Ht) as [H1 | [H2 | Heq]].
    + left. apply hits_limit_bind, H1.
    + right. left. apply hits_limit_bind, H2.
    + rewrite Heq. destruct (@parse_step R2 x stack t2) as [[x' stack'] | e]; cbn [bind].
      * apply IH.
      * right. right. reflexivity.
Qed.

(** Two scans of one text give the same value or the same fault, unless
    one of them is stopped at a limit. *)
Lemma json_loads_same (s : pystr) :
  hits_limit (@json_loads R1 s) \/ hits_limit (@json_loads R2 s)
  \/ @json_loads R1 s = @json_loads R2 s.
Proof. apply parse_same, lex_same. Qed.

End TwoRuntimes.

(** The models read a value through the coercions of the library alone. *)
Lemma ServerEvent_same_library (R1 R2 : Runtime) (j : json) :
  @lax_int R1 = @lax_int R2 -> @lax_float R1 = @lax_float R2 ->
  @lax_bool R1 = @lax_bool R2 ->
  @ServerEvent.model_validate R1 j = @ServerEvent.model_validate R2 j.
Proof.
  destruct R1, R2. simpl. intros -> -> ->. reflexivity.
Qed.

Lemma try_body_same (R1 R2 : Runtime) (message_str : pystr) :
  @lax_int R1 = @lax_int R2 -> @lax_float R1 = @lax_float R2 ->
  @lax_bool R1 = @lax_bool R2 ->
  @json_loads R1 message_str = @json_loads R2 message_str ->
  @try_body R1 message_str = @try_body R2 message_str.
Proof.
  intros Hi Hf Hb Hj. unfold try_body. rewrite Hj.
  destruct (@json_loads R2 message_str) as [j | e]; cbn [bind]; [ | reflexivity ].
  rewrite (@ServerEvent_same_library R1 R2 j Hi Hf Hb). reflexivity.
Qed.

(** C8, as the claim states it, fails: the result depends on how much
    recursion depth the interpreter has left where the call is made.  A
    text with 995 nested arrays under an unknown key is an event for a
    call with 1000 levels left and [None] for a call, deeper in the stack,
    with 990. *)
Lemma parse_server_event_depends_on_the_depth_left :
  let text := wire "{'later': " ++ repeat 91%N 995 ++ repeat 93%N 995 ++ wire "}" in
  let deeper := {| recursion_limit := 990;
                   int_max_str_digits := 4300;
                   lax_int := example_int;
                   lax_float := example_float;
                   lax_bool := example_bool |} in
  fst (@parse_server_event example_runtime text [])
  = Returns (Some (ServerEvent.mk None None None None))
  /\ fst (@parse_server_event deeper text []) = Returns None.
Proof. split; vm_compute; reflexivity. Qed.

(** C8, amended. Two calls of [parse_server_event] on the same text, under
    the same validation library and in whatever state each of them finds
    the log sink (so also when the second call follows the first), return
    equal results when the interpreter gives both the same recursion depth
    and the same digit limit; and when it does not, they still return
    equal results provided neither call is stopped at one of these limits
    (recursion depth, digits of an integer literal) while it decodes the
    JSON. *)
Theorem parse_server_event_deterministic (R1 R2 : Runtime) (message_str : pystr)
  (log1 log2 : sink) :
  @lax_int R1 = @lax_int R2 -> @lax_float R1 = @lax_float R2 ->
  @lax_bool R1 = @lax_bool R2 ->
  (@recursion_limit R1 = @recursion_limit R2
   /\ @int_max_str_digits R1 = @int_max_str_digits R2)
  \/ (~ hits_limit (@json_loads R1 message_str)
      /\ ~ hits_limit (@json_loads R2 message_str)) ->
  fst (@parse_server_event R1 message_str log1)
  = fst (@parse_server_event R2 message_str log2).
Proof.
  intros Hi Hf Hb Hstate.
  assert (Hj : @json_loads R1 message_str = @json_loads R2 message_str).
  { destruct Hstate as [[Hdepth Hdigits] | [H1 H2]].
    - destruct R1, R2. simpl in *. subst. reflexivity.
    - destruct (json_loads_same R1 R2 message_str) as [H | [H | Hj]];
        [contradiction | contradiction | exact Hj]. }
  unfold parse_server_event. rewrite (@try_body_same R1 R2 message_str Hi Hf Hb Hj).
  destruct (@try_body R2 message_str) as [evt | e]; [reflexivity | ].
  destruct (is_Exception (exn_class e)); reflexivity.
Qed.

Lemma parse_server_event_deterministic_witness :
  let text := wire "{'serverContent': {'modelTurn': {'parts': [{'text': 'hi'}]}}, 'n': 12}" in
  let deeper := {| recursion_limit := 10;
                   int_max_str_digits := 0;
                   lax_int := example_int;
                   lax_float := example_float;
                   lax_bool := example_bool |} in
  (exists evt, fst (@parse_server_event example_runtime text []) = Returns (Some evt))
  /\ fst (@parse_server_event example_runtime text [])
     = fst (@parse_server_event deeper text [(ERROR, py "earlier")]).
Proof.
  intros text deeper. split; [vm_compute; eexists; reflexivity | ].
  apply (@parse_server_event_deterministic example_runtime deeper text
           [] [(ERROR, py "earlier")] eq_refl eq_refl eq_refl).
  right. split.
  - intros (e & He & _). vm_compute in He. discriminate He.
  - intros (e & He & _). vm_compute in He. discriminate He.
Defined.

(** ** base64: decoding undoes encoding *)

Section Base64.
#[local] Open Scope N_scope.

Lemma sextet_cases (P : N -> bool) :
  forallb P sextets = true -> forall n, n < 64 -> P n = true.
Proof.
  intros Hall n Hn. rewrite forallb_forall in Hall. apply Hall.
  unfold sextets. rewrite <- (N2Nat.id n). apply in_map, in_seq. lia.
Qed.

Lemma dec6_enc6 n : n < 64 -> base64.dec6 (base64.enc6 n) = Some n.
Proof.
  intros Hn.
  apply (sextet_cases (fun n => match base64.dec6 (base64.enc6 n) with
                                | Some m => N.eqb m n
                                | None => false
                                end)) in Hn; [ | vm_compute; reflexivity ].
  destruct (base64.dec6 (base64.enc6 n)); [ | discriminate ].
  apply N.eqb_eq in Hn. congruence.
Qed.

Lemma enc6_not_pad n : n < 64 -> Byte.eqb (base64.enc6 n) base64.pad = false.
Proof.
  intros Hn.
  apply (sextet_cases (fun n => negb (Byte.eqb (base64.enc6 n) base64.pad))) in Hn;
    [ | vm_compute; reflexivity ].
  apply negb_true_iff in Hn. exact Hn.
Qed.

Lemma enc6_ascii n : Byte.to_N (base64.enc6 n) < 128.
Proof.
  destruct (N.lt_ge_cases n 64) as [Hn | Hn].
  - apply (sextet_cases (fun n => Byte.to_N (base64.enc6 n) <? 128)) in Hn;
      [ | vm_compute; reflexivity ].
    apply N.ltb_lt. exact Hn.
  - unfold base64.enc6. rewrite nth_overflow; [vm_compute; reflexivity | ].
    change (List.length base64.alphabet) with 64%nat. lia.
Qed.

Lemma byte_of_to_N b : base64.byte_of (Byte.to_N b) = b.
Proof.
  unfold base64.byte_of. pose proof (Byte.to_N_bounded b).
  rewrite N.mod_small by lia. rewrite Byte.of_to_N. reflexivity.
Qed.

(** The three bytes of a group, as the decoder puts them together. *)
Lemma join_first l v : l < 64 -> v < 64 ->
  N.lor (N.shiftl l 2) (N.shiftr v 4) = l * 4 + v / 16.
Proof.
  intros Hl Hv.
  apply (sextet_cases (fun l => forallb (fun v =>
           N.lor (N.shiftl l 2) (N.shiftr v 4) =? l * 4 + v / 16) sextets)) in Hl;
    [ | vm_compute; reflexivity ].
  apply N.eqb_eq. revert v Hv. apply sextet_cases. exact Hl.
Qed.

Lemma join_second l v : l < 64 -> v < 64 ->
  N.lor (N.shiftl (N.land l 15) 4) (N.shiftr v 2) = l mod 16 * 16 + v / 4.
Proof.
  intros Hl Hv.
  apply (sextet_cases (fun l => forallb (fun v =>
           N.lor (N.shiftl (N.land l 15) 4) (N.shiftr v 2) =? l mod 16 * 16 + v / 4)
           sextets)) in Hl;
    [ | vm_compute; reflexivity ].
  apply N.eqb_eq. revert v Hv. apply sextet_cases. exact Hl.
Qed.

Lemma join_third l v : l < 64 -> v < 64 ->
  N.lor (N.shiftl (N.land l 3) 6) v = l mod 4 * 64 + v.
Proof.
  intros Hl Hv.
  apply (sextet_cases (fun l => forallb (fun v =>
           N.lor (N.shiftl (N.land l 3) 6) v =? l mod 4 * 64 + v) sextets)) in Hl;
    [ | vm_compute; reflexivity ].
  apply N.eqb_eq. revert v Hv. apply sextet_cases. exact Hl.
Qed.

(** The four 6-bit groups of three bytes [x], [y], [z]. *)
Ltac euclid a k :=
  let q := fresh "q" in
  let r := fresh "r" in
  pose proof (N.div_mod a k ltac:(discriminate));
  pose proof (N.mod_lt a k ltac:(discriminate));
  set (q := a / k) in *; set (r := a mod k) in *;
  clearbody q r.

Lemma group_1 x y z : y < 256 -> z < 256 ->
  (x * 65536 + y * 256 + z) / 262144 = x / 4.
Proof.
  intros Hy Hz. symmetry.
  apply N.div_unique with (r := x mod 4 * 65536 + y * 256 + z); euclid x 4; lia.
Qed.

Lemma group_2 x y z : y < 256 -> z < 256 ->
  (x * 65536 + y * 256 + z) / 4096 mod 64 = x mod 4 * 16 + y / 16.
Proof.
  intros Hy Hz.
  replace ((x * 65536 + y * 256 + z) / 4096) with (x * 16 + y / 16).
  - symmetry. apply N.mod_unique with (q := x / 4); euclid x 4; euclid y 16; lia.
  - apply N.div_unique with (r := y mod 16 * 256 + z); euclid y 16; lia.
Qed.

Lemma group_3 x y z : z < 256 ->
  (x * 65536 + y * 256 + z) / 64 mod 64 = y mod 16 * 4 + z / 64.
Proof.
  intros Hz.
  replace ((x * 65536 + y * 256 + z) / 64) with (x * 1024 + y * 4 + z / 64).
  - symmetry. apply N.mod_unique with (q := x * 16 + y / 16);
      euclid y 16; euclid z 64; lia.
  - apply N.div_unique with (r := z mod 64); euclid z 64; lia.
Qed.

Lemma group_4 x y z :
  (x * 65536 + y * 256 + z) mod 64 = z mod 64.
Proof.
  symmetry. apply N.mod_unique with (q := x * 1024 + y * 4 + z / 64);
    euclid z 64; lia.
Qed.

Lemma bytes_of_groups x y z :
  let s1 := x / 4 in
  let s2 := x mod 4 * 16 + y / 16 in
  let s3 := y mod 16 * 4 + z / 64 in
  let s4 := z mod 64 in
  x < 256 -> y < 256 -> z < 256 ->
  (s1 < 64 /\ s2 < 64 /\ s3 < 64 /\ s4 < 64)
  /\ s1 * 4 + s2 / 16 = x
  /\ s2 mod 16 * 16 + s3 / 4 = y
  /\ s3 mod 4 * 64 + s4 = z.
Proof.
  intros s1 s2 s3 s4 Hx Hy Hz.
  assert (H2 : s2 / 16 = x mod 4).
  { symmetry. apply N.div_unique with (r := y / 16); subst s2;
      euclid x 4; euclid y 16; lia. }
  assert (H2' : s2 mod 16 = y / 16).
  { symmetry. apply N.mod_unique with (q := x mod 4); subst s2;
      euclid x 4; euclid y 16; lia. }
  assert (H3 : s3 / 4 = y mod 16).
  { symmetry. apply N.div_unique with (r := z / 64); subst s3;
      euclid y 16; euclid z 64; lia. }
  assert (H3' : s3 mod 4 = z / 64).
  { symmetry. apply N.mod_unique with (q := y mod 16); subst s3;
      euclid y 16; euclid z 64; lia. }
  rewrite H2, H2', H3, H3'. subst s1 s2 s3 s4.
  euclid x 4; euclid y 16; euclid z 64. lia.
Qed.

Lemma a2b_base64_data s rest q l p :
  s < 64 ->
  base64.a2b_base64 (base64.enc6 s :: rest) q l p
  = match q with
    | 0 => base64.a2b_base64 rest 1 s 0
    | 1 => option_map
             (cons (base64.byte_of (N.lor (N.shiftl l 2) (N.shiftr s 4))))
             (base64.a2b_base64 rest 2 (N.land s 15) 0)
    | 2 => option_map
             (cons (base64.byte_of (N.lor (N.shiftl l 4) (N.shiftr s 2))))
             (base64.a2b_base64 rest 3 (N.land s 3) 0)
    | _ => option_map
             (cons (base64.byte_of (N.lor (N.shiftl l 6) s)))
             (base64.a2b_base64 rest 0 0 0)
    end.
Proof.
  intros Hs. cbn [base64.a2b_base64].
  rewrite enc6_not_pad, dec6_enc6 by assumption. reflexivity.
Qed.

(** The decoder on the characters of the group of [a], [b], [c], one byte
    at a time, whatever follows. *)
Lemma a2b_base64_group (a b c : byte) :
  let n := Byte.to_N a * 65536 + Byte.to_N b * 256 + Byte.to_N c in
  let s1 := n / 262144 in
  let s2 := n / 4096 mod 64 in
  let s3 := n / 64 mod 64 in
  let s4 := n mod 64 in
  (forall rest,
     base64.a2b_base64 (base64.enc6 s1 :: base64.enc6 s2 :: rest) 0 0 0
     = option_map (cons a) (base64.a2b_base64 rest 2 (N.land s2 15) 0))
  /\ (forall rest,
        base64.a2b_base64 (base64.enc6 s3 :: rest) 2 (N.land s2 15) 0
        = option_map (cons b) (base64.a2b_base64 rest 3 (N.land s3 3) 0))
  /\ (forall rest,
        base64.a2b_base64 (base64.enc6 s4 :: rest) 3 (N.land s3 3) 0
        = option_map (cons c) (base64.a2b_base64 rest 0 0 0)).
Proof.
  intros n s1 s2 s3 s4. subst n s1 s2 s3 s4.
  pose proof (Byte.to_N_bounded a) as Bx. pose proof (Byte.to_N_bounded b) as By.
  pose proof (Byte.to_N_bounded c) as Bz.
  set (x := Byte.to_N a) in *. set (y := Byte.to_N b) in *. set (z := Byte.to_N c) in *.
  rewrite group_1, group_2, group_3, group_4 by lia.
  destruct (@bytes_of_groups x y z) as [(H1 & H2 & H3 & H4) (Ha & Hb & Hc)]; try lia.
  repeat split; intros rest.
  - rewrite 2 a2b_base64_data by assumption.
    rewrite join_first, Ha by assumption. unfold x. rewrite byte_of_to_N. reflexivity.
  - rewrite a2b_base64_data, join_second, Hb by assumption.
    unfold y. rewrite byte_of_to_N. reflexivity.
  - rewrite a2b_base64_data, join_third, Hc by assumption.
    unfold z. rewrite byte_of_to_N. reflexivity.
Qed.

Lemma list_ind3 {A} (P : list A -> Prop) :
  P [] -> (forall a, P [a]) -> (forall a b, P [a; b]) ->
  (forall a b c l, P l -> P (a :: b :: c :: l)) ->
  forall l, P l.
Proof.
  intros H0 H1 H2 H3.
  fix IH 1.
  intros [ | a [ | b [ | c l ] ] ];
    [exact H0 | apply H1 | apply H2 | apply H3, IH].
Qed.

Lemma b64decode_b64encode (raw : list byte) :
  base64.b64decode (base64.b64encode raw) = Some raw.
Proof.
  unfold base64.b64decode.
  induction raw as [ | a | a b | a b c raw IH ] using list_ind3.
  - reflexivity.
  - cbn [base64.b64encode].
    destruct (a2b_base64_group a "000" "000") as (Ha & _).
    cbn [Byte.to_N] in Ha. rewrite N.mul_0_l, !N.add_0_r in Ha.
    rewrite Ha. reflexivity.
  - cbn [base64.b64encode].
    destruct (a2b_base64_group a b "000") as (Ha & Hb & _).
    cbn [Byte.to_N] in Ha, Hb. rewrite !N.add_0_r in Ha, Hb.
    rewrite Ha, Hb. reflexivity.
  - cbn [base64.b64encode].
    destruct (a2b_base64_group a b c) as (Ha & Hb & Hc).
    rewrite Ha, Hb, Hc, IH. reflexivity.
Qed.

Lemma b64encode_ascii (raw : list byte) :
  Forall (fun b => Byte.to_N b < 128) (base64.b64encode raw).
Proof.
  induction raw as [ | a | a b | a b c raw IH ] using list_ind3;
    cbn [base64.b64encode]; repeat constructor; try apply enc6_ascii; exact IH.
Qed.

Lemma encode_ascii_decode_ascii (s : list byte) :
  Forall (fun b => Byte.to_N b < 128) s ->
  base64.encode_ascii (base64.decode_ascii s) = Some s.
Proof.
  unfold base64.decode_ascii.
  induction 1 as [ | b s Hb Hs IH ]; cbn [List.map base64.encode_ascii];
    [reflexivity | ].
  rewrite Byte.of_to_N, IH. apply N.ltb_lt in Hb. rewrite Hb. reflexivity.
Qed.
End Base64.

(** The decimal digits [str] gives for an integer read back as it. *)
Lemma str_of_int_reads_back (n : Z) :
  option_map Z.of_int (NilZero.int_of_string (NilZero.string_of_int (Z.to_int n)))
  = Some n.
Proof.
  rewrite NilZero.isi.
  - simpl. rewrite DecimalZ.of_to. reflexivity.
  - destruct n; simpl; try discriminate.
    intros [= Hp]. revert Hp. apply DecimalPos.Unsigned.to_uint_nonnil.
  - destruct n; simpl; try discriminate.
    intros [= Hp]. revert Hp. apply DecimalPos.Unsigned.to_uint_nonnil.
Qed.

Lemma b64decode_str_data (raw : list byte) :
  base64.b64decode_str (base64.decode_ascii (base64.b64encode raw)) = Some raw.
Proof.
  unfold base64.b64decode_str.
  rewrite encode_ascii_decode_ascii by apply b64encode_ascii.
  apply b64decode_b64encode.
Qed.

(** ** [str] of an integer *)

Lemma py_string_of_uint (u : Decimal.uint) :
  py (NilEmpty.string_of_uint u) = List.map digit_char (uint_digits u).
Proof.
  induction u; simpl; try reflexivity;
    (change (py (String ?c ?s)) with (N_of_ascii c :: py s); rewrite IHu; reflexivity).
Qed.

Lemma uint_digits_range (u : Decimal.uint) :
  Forall (fun d => 0 <= d <= 9) (uint_digits u).
Proof. induction u; simpl; constructor; try lia; assumption. Qed.

Lemma of_uint_acc_value (u : Decimal.uint) :
  forall acc,
    Z.pos (Pos.of_uint_acc u acc)
    = fold_left (fun a d => a * 10 + d) (uint_digits u) (Z.pos acc).
Proof.
  induction u; intros acc; cbn [Pos.of_uint_acc uint_digits fold_left];
    try reflexivity; rewrite IHu; f_equal; lia.
Qed.

Lemma of_uint_value (u : Decimal.uint) :
  Z.of_N (Pos.of_uint u) = digits_value (uint_digits u).
Proof.
  unfold digits_value.
  induction u; cbn [Pos.of_uint uint_digits fold_left Z.of_N];
    try reflexivity; try exact IHu; apply of_uint_acc_value.
Qed.

(** The digits of a positive number: its value, and no leading zero. *)
Lemma to_uint_digits (p : positive) :
  digits_value (uint_digits (Pos.to_uint p)) = Z.pos p
  /\ exists d ds, uint_digits (Pos.to_uint p) = d :: ds /\ d <> 0.
Proof.
  split.
  - rewrite <- of_uint_value, DecimalPos.Unsigned.of_to. reflexivity.
  - pose proof (DecimalPos.Unsigned.to_of (Pos.to_uint p)) as Hnorm.
    rewrite DecimalPos.Unsigned.of_to in Hnorm. simpl in Hnorm.
    destruct (Pos.to_uint p) as [ | u | u | u | u | u | u | u | u | u | u ] eqn:Hu;
      try (eexists _, _; split; [reflexivity | discriminate]).
    + exfalso. apply (DecimalPos.Unsigned.to_uint_nonnil p). exact Hu.
    + exfalso. rewrite DecimalFacts.unorm_D0 in Hnorm. unfold Decimal.unorm in Hnorm.
      destruct (Decimal.nzhead u) eqn:Hz.
      * apply (DecimalPos.Unsigned.to_uint_nonzero p). rewrite Hu.
        injection Hnorm as <-. reflexivity.
      * symmetry in Hnorm. rewrite <- Hz in Hnorm. revert Hnorm. apply DecimalFacts.nzhead_nonzero.
      * discriminate. * discriminate. * discriminate. * discriminate.
      * discriminate. * discriminate. * discriminate. * discriminate.
      * discriminate.
Qed.

Lemma string_of_int_rendering (n : Z) :
  decimal_rendering n (py (NilZero.string_of_int (Z.to_int n))).
Proof.
  destruct n as [ | p | p ]; simpl.
  - exists [0]. repeat split; try discriminate.
    + repeat constructor; lia.
    + intros ds' [= <-]. reflexivity.
  - destruct (to_uint_digits p) as [Hval (d & ds & Hds & Hd)].
    exists (uint_digits (Pos.to_uint p)).
    unfold NilZero.string_of_uint.
    destruct (Pos.to_uint p) eqn:Hu;
      try (exfalso; apply (DecimalPos.Unsigned.to_uint_nonnil p); exact Hu);
      rewrite <- Hu in *; rewrite py_string_of_uint;
      (repeat split;
       [ rewrite Hds; discriminate | apply uint_digits_range
       | intros ds' Heq; congruence | exact Hval ]).
  - destruct (to_uint_digits p) as [Hval (d & ds & Hds & Hd)].
    exists (uint_digits (Pos.to_uint p)).
    change (py (String "-" ?s)) with (45%N :: py s).
    unfold NilZero.string_of_uint.
    destruct (Pos.to_uint p) eqn:Hu;
      try (exfalso; apply (DecimalPos.Unsigned.to_uint_nonnil p); exact Hu);
      rewrite <- Hu in *; rewrite py_string_of_uint;
      (repeat split;
       [ rewrite Hds; discriminate | apply uint_digits_range
       | intros ds' Heq; congruence | exact Hval ]).
Qed.

Lemma digits_bounds (ds : list Z) :
  Forall (fun d => 0 <= d <= 9) ds ->
  forall acc, 0 <= acc ->
    acc * 10 ^ Z.of_nat (List.length ds)
    <= fold_left (fun a d => a * 10 + d) ds acc
    < (acc + 1) * 10 ^ Z.of_nat (List.length ds).
Proof.
  induction 1 as [ | d ds Hd Hds IH ]; intros acc Hacc.
  - simpl. lia.
  - cbn [fold_left List.length]. rewrite Nat2Z.inj_succ, Z.pow_succ_r by lia.
    specialize (IH (acc * 10 + d) ltac:(lia)).
    pose proof (Z.pow_pos_nonneg 10 (Z.of_nat (List.length ds)) ltac:(lia) ltac:(lia)).
    nia.
Qed.

(** A rendering has more than [limit] digits exactly when the number is at
    least [10 ^ limit]. *)
Lemma rendering_digits (n : Z) (s : pystr) (limit : nat) :
  decimal_rendering n s -> limit <> 0%nat ->
  Nat.ltb limit (Nat.sub (List.length s) (if n <? 0 then 1%nat else 0%nat)) = true
  <-> 10 ^ Z.of_nat limit <= Z.abs n.
Proof.
  intros (ds & -> & Hne & Hrange & Hlead & Hval) Hlimit.
  match goal with
  | |- context [Nat.sub ?a ?b] =>
      replace (Nat.sub a b) with (List.length ds)
        by (rewrite length_app, length_map; destruct (n <? 0); simpl; lia)
  end.
  rewrite Nat.ltb_lt, <- Hval. unfold digits_value.
  pose proof (digits_bounds Hrange (acc := 0) ltac:(lia)) as Hb.
  split.
  - intros Hlong.
    destruct ds as [ | d ds' ]; [contradiction | ].
    destruct (Z.eq_dec d 0) as [-> | Hd].
    + rewrite (Hlead ds' eq_refl) in Hlong. simpl in Hlong. lia.
    + inversion Hrange as [ | ? ? Hd9 Hrest ]; subst.
      cbn [fold_left]. pose proof (digits_bounds Hrest (acc := 0 * 10 + d) ltac:(lia)) as Hb'.
      cbn [List.length] in Hlong.
      assert (10 ^ Z.of_nat limit <= 10 ^ Z.of_nat (List.length ds'))
        by (apply Z.pow_le_mono_r; lia).
      pose proof (Z.pow_pos_nonneg 10 (Z.of_nat (List.length ds')) ltac:(lia) ltac:(lia)).
      nia.
  - intros Hbig.
    destruct (Nat.lt_ge_cases limit (List.length ds)) as [Hlt | Hge]; [exact Hlt | ].
    assert (10 ^ Z.of_nat (List.length ds) <= 10 ^ Z.of_nat limit)
      by (apply Z.pow_le_mono_r; lia).
    lia.
Qed.

Lemma str_of_int_Ok `{Runtime} (n : Z) (s : pystr) :
  str_of_int n = Ok s -> s = py (NilZero.string_of_int (Z.to_int n)).
Proof.
  unfold str_of_int. destruct (_ && _); [discriminate | ]. intros [= <-]. reflexivity.
Qed.

(** [str] converts the integers within the digit limit and no others. *)
Lemma str_of_int_within `{Runtime} (n : Z) :
  within_digit_limit n ->
  str_of_int n = Ok (py (NilZero.string_of_int (Z.to_int n))).
Proof.
  intros Hin. unfold str_of_int.
  destruct (Nat.eqb_spec int_max_str_digits 0) as [H0 | H0]; [reflexivity | ].
  destruct Hin as [Hin | Hin]; [contradiction | ].
  cbn [negb andb].
  destruct (Nat.ltb _ _) eqn:Hlong; [ | reflexivity ].
  apply (rendering_digits (string_of_int_rendering n) H0) in Hlong. lia.
Qed.

Lemma str_of_int_over `{Runtime} (n : Z) :
  ~ within_digit_limit n ->
  exists e, str_of_int n = Raise e /\ exn_class e = ValueError.
Proof.
  intros Hout. unfold str_of_int, within_digit_limit in *.
  destruct (Nat.eqb_spec int_max_str_digits 0) as [H0 | H0]; [tauto | ].
  cbn [negb andb].
  destruct (Nat.ltb _ _) eqn:Hlong; [eexists; split; reflexivity | ].
  exfalso. apply Hout. right.
  destruct (Z.lt_ge_cases (Z.abs n) (10 ^ Z.of_nat int_max_str_digits)) as [Hlt | Hge];
    [exact Hlt | ].
  apply (rendering_digits (string_of_int_rendering n) H0) in Hge. congruence.
Qed.

Lemma digits_same_length (ds ds' : list Z) :
  Forall (fun d => 0 <= d <= 9) ds -> Forall (fun d => 0 <= d <= 9) ds' ->
  List.length ds = List.length ds' ->
  forall acc acc',
    fold_left (fun a d => a * 10 + d) ds acc = fold_left (fun a d => a * 10 + d) ds' acc' ->
    acc = acc' /\ ds = ds'.
Proof.
  intros Hds. revert ds'.
  induction Hds as [ | d ds Hd Hds IH ]; intros ds' Hds' Hlen acc acc' Heq.
  - destruct ds'; [ | discriminate ]. simpl in Heq. split; [exact Heq | reflexivity].
  - destruct Hds' as [ | d' ds' Hd' Hds' ]; [discriminate | ].
    cbn [fold_left] in Heq. injection Hlen as Hlen.
    destruct (IH ds' Hds' Hlen _ _ Heq) as [Hacc ->].
    assert (acc = acc' /\ d = d') as [-> ->] by lia. split; reflexivity.
Qed.

(** A number has one decimal rendering. *)
Lemma decimal_rendering_unique (n : Z) (s s' : pystr) :
  decimal_rendering n s -> decimal_rendering n s' -> s = s'.
Proof.
  intros (ds & -> & Hne & Hrange & Hlead & Hval) (ds' & -> & Hne' & Hrange' & Hlead' & Hval').
  f_equal. f_equal. unfold digits_value in *.
  assert (Hlen : forall a b : list Z,
             a <> [] -> Forall (fun d => 0 <= d <= 9) a -> (forall t, a = 0 :: t -> t = []) ->
             b <> [] -> Forall (fun d => 0 <= d <= 9) b -> (forall t, b = 0 :: t -> t = []) ->
             fold_left (fun a d => a * 10 + d) a 0 = fold_left (fun a d => a * 10 + d) b 0 ->
             (List.length a <= List.length b)%nat).
  { intros a b Ha Ra La Hb Rb Lb Hab.
    destruct (Nat.le_gt_cases (List.length a) (List.length b)) as [Hle | Hgt]; [exact Hle | ].
    exfalso.
    pose proof (digits_bounds Rb (acc := 0) ltac:(lia)) as Bb.
    destruct a as [ | d a' ]; [contradiction | ].
    inversion Ra as [ | ? ? Hd Ra' ]; subst.
    cbn [fold_left] in Hab.
    pose proof (digits_bounds Ra' (acc := 0 * 10 + d) ltac:(lia)) as Ba.
    destruct (Z.eq_dec d 0) as [-> | Hd0].
    - rewrite (La a' eq_refl) in *. simpl in Hgt.
      destruct b; [contradiction | simpl in Hgt; lia].
    - cbn [List.length] in Hgt.
      assert (10 ^ Z.of_nat (List.length b) <= 10 ^ Z.of_nat (List.length a'))
        by (apply Z.pow_le_mono_r; lia).
      pose proof (Z.pow_pos_nonneg 10 (Z.of_nat (List.length a')) ltac:(lia) ltac:(lia)).
      nia. }
  assert (Heq : fold_left (fun a d => a * 10 + d) ds 0
                = fold_left (fun a d => a * 10 + d) ds' 0) by congruence.
  apply (digits_same_length Hrange Hrange') in Heq; [apply Heq | ].
  apply Nat.le_antisymm; apply Hlen; auto.
Qed.

(** ** [from_raw_audio] *)

(** C3, as the claim states it, fails: with the interpreter's default limit
    of 4300 digits, a sample rate of 4301 digits is not rendered, and
    [from_raw_audio] raises [ValueError] in the place of building a
    message. *)
Lemma from_raw_audio_refuses_a_long_rate :
  exists e,
    @AudioInputMessage.from_raw_audio example_runtime [] (10 ^ 4300) = Raise e
    /\ exn_class e = ValueError.
Proof.
  unfold AudioInputMessage.from_raw_audio.
  destruct (@str_of_int_over example_runtime (10 ^ 4300)) as (e & He & Hc).
  - intros [H0 | Hlt]; [discriminate | ].
    change (Z.of_nat (@int_max_str_digits example_runtime)) with 4300 in Hlt.
    rewrite Z.abs_eq in Hlt by (apply Z.pow_nonneg; lia). lia.
  - exists e. rewrite He. split; [reflexivity | exact Hc].
Qed.

(** C3, amended. For every byte sequence and every integer sample rate
    within the interpreter's limit on the digits of an integer it converts
    to text, [from_raw_audio] gives a message with a single media chunk;
    base64-decoding the chunk's [data] gives back exactly the bytes, and
    its [mimeType] is ["audio/pcm;rate="] followed by the decimal
    rendering of the rate.  For a rate beyond the limit the constructor
    raises [ValueError]. *)
Theorem from_raw_audio_roundtrip `{Runtime} (raw_audio : list byte) (sample_rate : Z) :
  (within_digit_limit sample_rate ->
   exists chunk rate,
     AudioInputMessage.from_raw_audio raw_audio sample_rate
     = Ok (AudioInputMessage.mk (RealtimeInput.mk [chunk]))
     /\ base64.b64decode_str (MediaChunk.data chunk) = Some raw_audio
     /\ MediaChunk.mimeType chunk = py "audio/pcm;rate=" ++ rate
     /\ decimal_rendering sample_rate rate)
  /\ (~ within_digit_limit sample_rate ->
      exists e, AudioInputMessage.from_raw_audio raw_audio sample_rate = Raise e
                /\ exn_class e = ValueError).
Proof.
  unfold AudioInputMessage.from_raw_audio. split.
  - intros Hin. rewrite (str_of_int_within Hin). cbn [bind].
    eexists _, _. split; [reflexivity | ]. cbn [MediaChunk.data MediaChunk.mimeType].
    split; [apply b64decode_str_data | ]. split; [reflexivity | ].
    apply string_of_int_rendering.
  - intros Hout. destruct (str_of_int_over Hout) as (e & He & Hc).
    exists e. rewrite He. split; [reflexivity | exact Hc].
Qed.

Lemma from_raw_audio_roundtrip_witness :
  @within_digit_limit example_runtime 16000
  /\ exists chunk,
       @AudioInputMessage.from_raw_audio example_runtime ["a"%byte; "b"%byte] 16000
       = Ok (AudioInputMessage.mk (RealtimeInput.mk [chunk]))
       /\ base64.b64decode_str (MediaChunk.data chunk) = Some ["a"%byte; "b"%byte]
       /\ MediaChunk.mimeType chunk = py "audio/pcm;rate=16000".
Proof.
  assert (Hin : @within_digit_limit example_runtime 16000).
  { right. apply Z.ltb_lt. vm_compute. reflexivity. }
  split; [exact Hin | ].
  destruct (proj1 (@from_raw_audio_roundtrip example_runtime ["a"%byte; "b"%byte] 16000) Hin)
    as (chunk & rate & Hmsg & Hdata & Hmime & _).
  exists chunk. split; [exact Hmsg | ]. split; [exact Hdata | ].
  assert (Hval : @AudioInputMessage.from_raw_audio example_runtime ["a"%byte; "b"%byte] 16000
                 = Ok (AudioInputMessage.mk (RealtimeInput.mk
                         [MediaChunk.mk (py "audio/pcm;rate=16000") (py "YWI=")])))
    by (vm_compute; reflexivity).
  rewrite Hval in Hmsg. injection Hmsg as <-. reflexivity.
Defined.

(** ** Enumerations and literals *)

Lemma pystr_eqb_eq (a b : pystr) : pystr_eqb a b = true <-> a = b.
Proof.
  revert b. induction a as [ | x a IH ]; intros [ | y b ]; simpl;
    try (split; [discriminate | discriminate ]); [tauto | ].
  rewrite andb_true_iff, N.eqb_eq, IH. split.
  - intros [-> ->]. reflexivity.
  - intros [= -> ->]. tauto.
Qed.

Lemma rejected_bind {A B} (r : result A) (k : A -> result B) :
  rejected r -> rejected (bind r k).
Proof. intros [e ->]. exists e. reflexivity. Qed.

Lemma rejected_bind_later {A B} (r : result A) (k : A -> result B) :
  (forall a, rejected (k a)) -> rejected (bind r k).
Proof.
  intros Hk. destruct r as [a | e]; simpl; [apply Hk | exists e; reflexivity].
Qed.

Lemma rejected_in_field {A} (k : pystr) (r : result A) :
  rejected r -> rejected (in_field k r).
Proof. intros [e ->]. simpl. eexists. reflexivity. Qed.

Lemma rejected_optional {A} (v : validator A) (j : json) :
  j <> JNull -> rejected (v j) -> rejected (validate_optional v j).
Proof.
  intros Hj [e He]. destruct j; try congruence; simpl; rewrite He; exists e; reflexivity.
Qed.

Lemma validate_enum_exact {A} (value : A -> pystr) (members : list A) (j : json) :
  ~ names_member value members j -> rejected (validate_enum value members j).
Proof.
  intros Hj. unfold validate_enum.
  destruct j; try (eexists; reflexivity).
  destruct (find _ members) as [m | ] eqn:Hfind; [ | eexists; reflexivity ].
  apply find_some in Hfind. destruct Hfind as [Hin Heq].
  apply pystr_eqb_eq in Heq. subst s.
  exfalso. apply Hj. exists m. split; [exact Hin | reflexivity].
Qed.

Lemma required_rejected {A} (d : dict) (k : string) (v : validator A) (j : json) :
  dict_get (py k) d = Some j -> rejected (v j) -> rejected (required d k v).
Proof. intros Hk Hv. unfold required. rewrite Hk. apply rejected_in_field, Hv. Qed.

Lemma with_default_rejected {A} (d : dict) (k : string) (v : validator A) dflt (j : json) :
  dict_get (py k) d = Some j -> rejected (v j) -> rejected (with_default d k v dflt).
Proof. intros Hk Hv. unfold with_default. rewrite Hk. apply rejected_in_field, Hv. Qed.

(** C5. A wire value that is not, exactly, the string of one of the members
    of an enumeration is not decoded: the decoder of the enumeration
    rejects it, and so does the model that holds the field.  This is so
    for [Turn.role] (a string other than ["user"] and ["model"], such as
    ["system"], and any value that is not a string), for [Modality] in a
    [ModalityTokenCount], and for the two sensitivity enumerations of
    [AutomaticActivityDetection], whose fields are optional and so take
    [null] for an absent value. *)
Theorem enum_values_are_exact `{Runtime} (j : json) :
  (~ names_member Turn.role_value [Turn.user; Turn.model] j ->
   rejected (Turn.validate_role j)
   /\ forall d, dict_get (py "role") d = Some j ->
                rejected (Turn.model_validate (JObject d)))
  /\ (~ names_member Modality.value Modality.members j ->
      rejected (Modality.validate j)
      /\ forall d, dict_get (py "modality") d = Some j ->
                   rejected (ModalityTokenCount.model_validate (JObject d)))
  /\ (~ names_member StartSensitivity.value StartSensitivity.members j ->
      rejected (StartSensitivity.validate j)
      /\ forall d, j <> JNull ->
                   dict_get (py "start_of_speech_sensitivity") d = Some j ->
                   rejected (AutomaticActivityDetection.model_validate (JObject d)))
  /\ (~ names_member EndSensitivity.value EndSensitivity.members j ->
      rejected (EndSensitivity.validate j)
      /\ forall d, j <> JNull ->
                   dict_get (py "end_of_speech_sensitivity") d = Some j ->
                   rejected (AutomaticActivityDetection.model_validate (JObject d))).
Proof.
  repeat split; intros; try (apply validate_enum_exact; assumption).
  - unfold Turn.model_validate. cbn [as_model bind].
    apply rejected_bind. eapply with_default_rejected; [eassumption | ].
    apply validate_enum_exact. assumption.
  - unfold ModalityTokenCount.model_validate. cbn [as_model bind].
    apply rejected_bind. eapply required_rejected; [eassumption | ].
    apply validate_enum_exact. assumption.
  - unfold AutomaticActivityDetection.model_validate. cbn [as_model bind].
    apply rejected_bind_later. intros disabled.
    apply rejected_bind. eapply with_default_rejected; [eassumption | ].
    apply rejected_optional; [assumption | ].
    apply validate_enum_exact. assumption.
  - unfold AutomaticActivityDetection.model_validate. cbn [as_model bind].
    do 3 (apply rejected_bind_later; intros ?).
    apply rejected_bind. eapply with_default_rejected; [eassumption | ].
    apply rejected_optional; [assumption | ].
    apply validate_enum_exact. assumption.
Qed.

Lemma enum_values_are_exact_witness :
  ~ names_member Turn.role_value [Turn.user; Turn.model] (JStr (py "system"))
  /\ rejected (Turn.model_validate
                 (JObject [(py "role", JStr (py "system")); (py "parts", JArray [])])).
Proof.
  assert (Hno : ~ names_member Turn.role_value [Turn.user; Turn.model] (JStr (py "system"))).
  { intros (m & _ & Hm). destruct m; discriminate. }
  split; [exact Hno | ].
  destruct (@enum_values_are_exact example_runtime (JStr (py "system"))) as [Hrole _].
  apply (Hrole Hno). reflexivity.
Defined.

(** ** [ContextWindowCompressionConfig] and [Turn] *)

(** C9. An object without the key [sliding_window] decodes to a
    configuration whose [sliding_window] is [True], and one without the key
    [trigger_tokens] to a configuration whose [trigger_tokens] is absent;
    the decoding can only fail on a [trigger_tokens] that is there. *)
Theorem ContextWindowCompressionConfig_defaults `{Runtime} (d : dict) :
  dict_get (py "sliding_window") d = None ->
  match ContextWindowCompressionConfig.model_validate (JObject d) with
  | Ok cfg =>
      ContextWindowCompressionConfig.sliding_window cfg = Some true
      /\ (dict_get (py "trigger_tokens") d = None ->
          ContextWindowCompressionConfig.trigger_tokens cfg = None)
  | Raise _ => dict_get (py "trigger_tokens") d <> None
  end.
Proof.
  intros Hsw. unfold ContextWindowCompressionConfig.model_validate.
  cbn [as_model bind]. unfold with_default. rewrite Hsw. cbn [bind].
  destruct (dict_get (py "trigger_tokens") d) as [j | ]; cbn [bind].
  - destruct (in_field _ _); cbn [bind]; [ | discriminate ].
    split; [reflexivity | discriminate].
  - split; reflexivity.
Qed.

Lemma ContextWindowCompressionConfig_defaults_witness :
  dict_get (py "sliding_window") [] = None
  /\ @ContextWindowCompressionConfig.model_validate example_runtime (JObject [])
     = Ok (ContextWindowCompressionConfig.mk (Some true) None).
Proof.
  split; [reflexivity | ].
  pose proof (@ContextWindowCompressionConfig_defaults example_runtime [] eq_refl) as Hd.
  destruct (@ContextWindowCompressionConfig.model_validate example_runtime (JObject []))
    as [[sw tt] | e]; [ | exfalso; apply Hd; reflexivity ].
  destruct Hd as [Hsw Htt]. simpl in Hsw, Htt. rewrite Hsw, (Htt eq_refl). reflexivity.
Defined.

(** C10. An object with a valid [parts] list and no [role] key decodes to
    a [Turn] whose role is ["user"]. *)
Theorem Turn_role_defaults_to_user (d : dict) (v : json) (parts : list ContentPart.t) :
  dict_get (py "role") d = None ->
  dict_get (py "parts") d = Some v ->
  validate_list ContentPart.model_validate v = Ok parts ->
  Turn.model_validate (JObject d) = Ok (Turn.mk Turn.user parts).
Proof.
  intros Hrole Hparts Hv. unfold Turn.model_validate. cbn [as_model bind].
  unfold with_default, required. rewrite Hrole, Hparts, Hv. reflexivity.
Qed.

Lemma Turn_role_defaults_to_user_witness :
  let d := [(py "parts", JArray [JObject [(py "text", JStr (py "hello"))]])] in
  dict_get (py "role") d = None
  /\ Turn.model_validate (JObject d)
     = Ok (Turn.mk Turn.user [ContentPart.mk (Some (py "hello")) None None]).
Proof.
  intros d. split; [reflexivity | ].
  apply (@Turn_role_defaults_to_user d (JArray [JObject [(py "text", JStr (py "hello"))]]));
    reflexivity.
Defined.

(** ** Fields that are not modelled *)

Create HintDb respects discriminated.

Lemma respects_opaque {A} (v : validator A) : respects Opaque v.
Proof. intros j j' Hs. inversion Hs; subst. reflexivity. Qed.

Lemma respects_optional {A} (s : shape) (v : validator A) :
  respects s v -> respects s (validate_optional v).
Proof.
  intros Hv j j' Hs. pose proof (Hv j j' Hs) as Heq.
  inversion Hs; subst; simpl; try reflexivity; rewrite Heq; reflexivity.
Qed.

Lemma validate_items_respects {A} (s : shape) (v : validator A) :
  respects s v ->
  forall l l', Forall2 (same_modelled s) l l' ->
  forall i, validate_items v i l = validate_items v i l'.
Proof.
  intros Hv l l' Hl. induction Hl as [ | j j' l l' Hj Hl IH ]; intros i; simpl.
  - reflexivity.
  - rewrite (Hv j j' Hj), IH. reflexivity.
Qed.

Lemma respects_list {A} (s : shape) (v : validator A) :
  respects s v -> respects (Items s) (validate_list v).
Proof.
  intros Hv j j' Hs. inversion Hs; subst; simpl; [reflexivity | ].
  apply validate_items_respects with (s := s); assumption.
Qed.

Lemma same_model_fields (fs : list (string * shape)) (j j' : json) :
  same_modelled (Model fs) j j' ->
  j = j' \/
  exists d d', j = JObject d /\ j' = JObject d' /\
    forall k s, In (k, s) fs ->
      opt_rel (same_modelled s) (dict_get (py k) d) (dict_get (py k) d').
Proof.
  intros Hs. inversion Hs; subst; [left; reflexivity | right].
  eexists _, _. repeat split. assumption.
Qed.

Lemma with_default_respects {A} (s : shape) (v : validator A) d d' k dflt :
  respects s v ->
  opt_rel (same_modelled s) (dict_get (py k) d) (dict_get (py k) d') ->
  with_default d k v dflt = with_default d' k v dflt.
Proof.
  intros Hv Hk. unfold with_default.
  destruct Hk as [ | j j' Hj ]; [reflexivity | ]. rewrite (Hv j j' Hj). reflexivity.
Qed.

Lemma optional_respects {A} (s : shape) (v : validator A) d d' k :
  respects s v ->
  opt_rel (same_modelled s) (dict_get (py k) d) (dict_get (py k) d') ->
  optional d k v = optional d' k v.
Proof. intros Hv. apply with_default_respects, respects_optional, Hv. Qed.

Lemma required_respects {A} (s : shape) (v : validator A) d d' k :
  respects s v ->
  opt_rel (same_modelled s) (dict_get (py k) d) (dict_get (py k) d') ->
  required d k v = required d' k v.
Proof.
  intros Hv Hk. unfold required.
  destruct Hk as [ | j j' Hj ]; [reflexivity | ]. rewrite (Hv j j' Hj). reflexivity.
Qed.

Lemma bind_ext {A B} (r r' : result A) (k k' : A -> result B) :
  r = r' -> (forall a, k a = k' a) -> bind r k = bind r' k'.
Proof. intros -> Hk. destruct r'; simpl; [apply Hk | reflexivity]. Qed.

#[local] Hint Resolve respects_opaque respects_list : respects.

Ltac in_fields := simpl; repeat first [ left; reflexivity | right ].

(** A model respects its own shape: every field it reads is declared, with
    the shape of the validator that reads it. *)
Ltac model_respects :=
  let Hs := fresh "Hs" in
  let Hf := fresh "Hf" in
  intros ? ? Hs;
  apply same_model_fields in Hs;
  destruct Hs as [-> | (? & ? & -> & -> & Hf)]; [reflexivity | ];
  cbn [as_model bind];
  repeat (apply bind_ext;
          [ first [ eapply optional_respects | eapply required_respects
                  | eapply with_default_respects ];
            [ | apply Hf; in_fields ]; auto with respects
          | intro ]);
  reflexivity.

Section Respects.
Context `{Runtime}.

Lemma SetupComplete_respects :
  respects (Model SetupComplete.fields) SetupComplete.model_validate.
Proof. unfold SetupComplete.model_validate. model_respects. Qed.

Lemma InlineData_respects : respects (Model InlineData.fields) InlineData.model_validate.
Proof. unfold InlineData.model_validate. model_respects. Qed.
#[local] Hint Resolve InlineData_respects : respects.

Lemma Part_respects : respects (Model Part.fields) Part.model_validate.
Proof. unfold Part.model_validate. model_respects. Qed.
#[local] Hint Resolve Part_respects : respects.

Lemma ModelTurn_respects : respects (Model ModelTurn.fields) ModelTurn.model_validate.
Proof. unfold ModelTurn.model_validate. model_respects. Qed.

Lemma Transcription_respects :
  respects (Model BidiGenerateContentTranscription.fields)
           BidiGenerateContentTranscription.model_validate.
Proof. unfold BidiGenerateContentTranscription.model_validate. model_respects. Qed.

Lemma SearchEntryPoint_respects :
  respects (Model SearchEntryPoint.fields) SearchEntryPoint.model_validate.
Proof. unfold SearchEntryPoint.model_validate. model_respects. Qed.

Lemma WebSource_respects : respects (Model WebSource.fields) WebSource.model_validate.
Proof. unfold WebSource.model_validate. model_respects. Qed.
#[local] Hint Resolve WebSource_respects : respects.

Lemma GroundingChunk_respects :
  respects (Model GroundingChunk.fields) GroundingChunk.model_validate.
Proof. unfold GroundingChunk.model_validate. model_respects. Qed.

Lemma GroundingSegment_respects :
  respects (Model GroundingSegment.fields) GroundingSegment.model_validate.
Proof. unfold GroundingSegment.model_validate. model_respects. Qed.
#[local] Hint Resolve GroundingSegment_respects : respects.

Lemma GroundingSupport_respects :
  respects (Model GroundingSupport.fields) GroundingSupport.model_validate.
Proof. unfold GroundingSupport.model_validate. model_respects. Qed.
#[local] Hint Resolve SearchEntryPoint_respects GroundingChunk_respects
  GroundingSupport_respects : respects.

Lemma GroundingMetadata_respects :
  respects (Model GroundingMetadata.fields) GroundingMetadata.model_validate.
Proof. unfold GroundingMetadata.model_validate. model_respects. Qed.
#[local] Hint Resolve ModelTurn_respects Transcription_respects
  GroundingMetadata_respects : respects.

Lemma ServerContent_respects :
  respects (Model ServerContent.fields) ServerContent.model_validate.
Proof. unfold ServerContent.model_validate. model_respects. Qed.

Lemma FunctionCall_respects :
  respects (Model FunctionCall.fields) FunctionCall.model_validate.
Proof. unfold FunctionCall.model_validate. model_respects. Qed.
#[local] Hint Resolve FunctionCall_respects : respects.

Lemma ToolCall_respects : respects (Model ToolCall.fields) ToolCall.model_validate.
Proof. unfold ToolCall.model_validate. model_respects. Qed.

Lemma ModalityTokenCount_respects :
  respects (Model ModalityTokenCount.fields) ModalityTokenCount.model_validate.
Proof. unfold ModalityTokenCount.model_validate. model_respects. Qed.
#[local] Hint Resolve ModalityTokenCount_respects : respects.

Lemma UsageMetadata_respects :
  respects (Model UsageMetadata.fields) UsageMetadata.model_validate.
Proof.
  unfold UsageMetadata.model_validate, UsageMetadata.details. model_respects.
Qed.
#[local] Hint Resolve SetupComplete_respects ServerContent_respects
  ToolCall_respects UsageMetadata_respects : respects.

Lemma ServerEvent_respects :
  respects (Model ServerEvent.fields) ServerEvent.model_validate.
Proof. unfold ServerEvent.model_validate. model_respects. Qed.

(** A key that a model declares is in both objects or in neither. *)
Lemma py_contains_respects (fs : list (string * shape)) (k : string) (s : shape)
  (j j' : json) :
  In (k, s) fs -> same_modelled (Model fs) j j' ->
  py_contains (py k) j = py_contains (py k) j'.
Proof.
  intros Hin Hs. apply same_model_fields in Hs.
  destruct Hs as [-> | (d & d' & -> & -> & Hf)]; [reflexivity | ].
  simpl. destruct (Hf k s Hin); reflexivity.
Qed.

(** The probe for grounding metadata at the head of the [try] block. *)
Lemma probe_respects (j j' : json) :
  same_modelled (Model ServerEvent.fields) j j' ->
  (has_content <- py_contains (py "serverContent") j ;;
   if has_content : bool then
     server_content <- py_getitem j (py "serverContent") ;;
     has_grounding <- py_contains (py "groundingMetadata") server_content ;;
     Ok tt
   else Ok tt)
  = (has_content <- py_contains (py "serverContent") j' ;;
     if has_content : bool then
       server_content <- py_getitem j' (py "serverContent") ;;
       has_grounding <- py_contains (py "groundingMetadata") server_content ;;
       Ok tt
     else Ok tt).
Proof.
  intros Hs. apply same_model_fields in Hs.
  destruct Hs as [-> | (d & d' & -> & -> & Hf)]; [reflexivity | ].
  assert (Hsc : opt_rel (same_modelled (Model ServerContent.fields))
                  (dict_get (py "serverContent") d) (dict_get (py "serverContent") d'))
    by (apply Hf; in_fields).
  cbn [py_contains py_getitem bind].
  destruct Hsc as [ | v v' Hv ]; cbn [bind]; [reflexivity | ].
  rewrite (@py_contains_respects ServerContent.fields "groundingMetadata"
             (Model GroundingMetadata.fields) v v'); [reflexivity | in_fields | exact Hv].
Qed.

Lemma try_body_respects (s s' : pystr) (j j' : json) :
  json_loads s = Ok j -> json_loads s' = Ok j' ->
  same_modelled (Model ServerEvent.fields) j j' ->
  try_body s' = try_body s.
Proof.
  intros Hj Hj' Hs. unfold try_body. rewrite Hj, Hj'. cbn [bind].
  pose proof (probe_respects Hs) as Hprobe.
  rewrite (ServerEvent_respects Hs).
  destruct (py_contains (py "serverContent") j) as [b | e],
           (py_contains (py "serverContent") j') as [b' | e'];
    cbn [bind] in *.
  - destruct b, b'; cbn [bind] in *.
    all: repeat match goal with
         | H : context [py_getitem ?x ?k] |- _ => destruct (py_getitem x k); cbn [bind] in *
         | H : context [py_contains ?k ?x] |- _ => destruct (py_contains k x); cbn [bind] in *
         end; try congruence; try reflexivity.
  - destruct b; cbn [bind] in *;
      repeat match goal with
         | H : context [py_getitem ?x ?k] |- _ => destruct (py_getitem x k); cbn [bind] in *
         | H : context [py_contains ?k ?x] |- _ => destruct (py_contains k x); cbn [bind] in *
         end; congruence.
  - destruct b'; cbn [bind] in *;
      repeat match goal with
         | H : context [py_getitem ?x ?k] |- _ => destruct (py_getitem x k); cbn [bind] in *
         | H : context [py_contains ?k ?x] |- _ => destruct (py_contains k x); cbn [bind] in *
         end; congruence.
  - congruence.
Qed.

End Respects.

(** C6, as the claim states it, fails: an unknown field can make the
    decode fail.  ["{"setupComplete": {}}"] is an event; the same object
    with one more, unmodelled, key is [None] when the value of that key is
    an integer literal of 4301 digits (the interpreter's limit is 4300) or
    1000 nested arrays (the recursion limit is 1000). *)
Lemma unknown_field_can_fail_the_decode :
  let s := wire "{'setupComplete': {}}" in
  let long := wire "{'setupComplete': {}, 'later': " ++ repeat 49%N 4301 ++ wire "}" in
  let deep := wire "{'setupComplete': {}, 'later': "
              ++ repeat 91%N 1000 ++ repeat 93%N 1000 ++ wire "}" in
  fst (@parse_server_event example_runtime s [])
  = Returns (Some (ServerEvent.mk (Some SetupComplete.mk) None None None))
  /\ fst (@parse_server_event example_runtime long []) = Returns None
  /\ fst (@parse_server_event example_runtime deep []) = Returns None.
Proof. repeat split; vm_compute; reflexivity. Qed.

(** C6, amended. Two texts that [json.loads] decodes, whose decoded values
    hold the same modelled data and differ only in keys that the models do
    not declare (at the top of the event or inside any model nested in
    it), give the same result: an unknown field whose value [json.loads]
    decodes is ignored, and its presence does not turn a decoding that
    succeeds into one that fails. *)
Theorem unknown_fields_are_ignored `{Runtime} (s s' : pystr) (j j' : json)
  (log log' : sink) :
  json_loads s = Ok j -> json_loads s' = Ok j' ->
  same_modelled (Model ServerEvent.fields) j j' ->
  fst (parse_server_event s' log') = fst (parse_server_event s log)
  /\ forall evt, parse_server_event s log = (Returns (Some evt), log) ->
                 parse_server_event s' log' = (Returns (Some evt), log').
Proof.
  intros Hj Hj' Hs. unfold parse_server_event.
  rewrite (try_body_respects s s' Hj Hj' Hs).
  destruct (try_body s) as [evt | e].
  - split; [reflexivity | ]. intros evt' [= <-]. reflexivity.
  - destruct (is_Exception (exn_class e)); split; try reflexivity; discriminate.
Qed.

Lemma unknown_fields_are_ignored_witness :
  let s := wire "{'setupComplete': {}, 'serverContent': {'turnComplete': true}}" in
  let s' := wire "{'serverContent': {'turnComplete': true, 'generationComplete': true}, 'goAway': {'timeLeft': '10s'}, 'setupComplete': {'sessionId': 'abc'}}" in
  (exists evt, fst (@parse_server_event example_runtime s []) = Returns (Some evt))
  /\ fst (@parse_server_event example_runtime s' [])
     = fst (@parse_server_event example_runtime s []).
Proof.
  intros s s'. split; [eexists; vm_compute; reflexivity | ].
  eapply (@unknown_fields_are_ignored example_runtime s s').
  - vm_compute. reflexivity.
  - vm_compute. reflexivity.
  - apply same_model. intros k sh Hin. simpl in Hin.
    destruct Hin as [[= <- <-] | [[= <- <-] | [[= <- <-] | [[= <- <-] | []]]]].
    + apply opt_some. apply same_model. intros ? ? [].
    + apply opt_some. apply same_model. intros k sh Hin. simpl in Hin.
      destruct Hin as [[= <- <-] | [[= <- <-] | [[= <- <-] | [[= <- <-] | [[= <- <-] | [[= <- <-] | []]]]]]];
        first [ apply opt_none | apply opt_some, same_value ].
    + apply opt_none.
    + apply opt_none.
Defined.

(** ** Absent fields, and a [null] under [serverContent] *)

(** A key that is missing from the event gives an absent field. *)
Lemma absent_fields_decode_to_None `{Runtime} (d : dict) (evt : ServerEvent.t) :
  ServerEvent.model_validate (JObject d) = Ok evt ->
  (dict_get (py "setupComplete") d = None -> ServerEvent.setupComplete evt = None)
  /\ (dict_get (py "serverContent") d = None -> ServerEvent.serverContent evt = None)
  /\ (dict_get (py "toolCall") d = None -> ServerEvent.toolCall evt = None)
  /\ (dict_get (py "usageMetadata") d = None -> ServerEvent.usageMetadata evt = None).
Proof.
  unfold ServerEvent.model_validate. cbn [as_model bind].
  unfold optional, with_default. intros Hok.
  repeat split; intros Hk; rewrite Hk in Hok; cbn [bind] in Hok;
    repeat match type of Hok with
           | context [bind ?r _] => destruct r; cbn [bind] in Hok; try discriminate
           end;
    injection Hok as <-; reflexivity.
Qed.

(** When the value under [serverContent] is missing or is an object, the
    [try] block gives what the model gives. *)
Lemma try_body_decodes `{Runtime} (message_str : pystr) (d : dict) :
  json_loads message_str = Ok (JObject d) ->
  (dict_get (py "serverContent") d = None
   \/ exists o, dict_get (py "serverContent") d = Some (JObject o)) ->
  try_body message_str = ServerEvent.model_validate (JObject d).
Proof.
  intros Hj Hsc. unfold try_body. rewrite Hj. cbn [bind py_contains py_getitem].
  destruct Hsc as [-> | [o ->]]; reflexivity.
Qed.

(** The scenario of the specification: an event with [setupComplete]
    alone. *)
Example setupComplete_alone :
  fst (@parse_server_event example_runtime (wire "{'setupComplete': {}}") [])
  = Returns (Some (ServerEvent.mk (Some SetupComplete.mk) None None None)).
Proof. vm_compute. reflexivity. Qed.

(** C2 fails on an event whose [serverContent] is [null].  The model
    declares the field [Optional] and reads the [null] as an absent field,
    but the probe for grounding metadata at the head of the [try] block
    applies [in] to the [None] it finds there: [TypeError] is raised, the
    [except] block logs it, and [parse_server_event] returns [None] for a
    payload the schema accepts. *)
Theorem null_serverContent_is_dropped `{Runtime} (message_str : pystr) (d : dict)
  (log : sink) :
  json_loads message_str = Ok (JObject d) ->
  dict_get (py "serverContent") d = Some JNull ->
  optional d "serverContent" ServerContent.model_validate = Ok None
  /\ exists e, exn_class e = TypeError
               /\ parse_server_event message_str log
                  = (Returns None, handler e message_str log).
Proof.
  intros Hj Hsc. split.
  - unfold optional, with_default. rewrite Hsc. reflexivity.
  - unfold parse_server_event, try_body. rewrite Hj.
    cbn [bind py_contains py_getitem]. rewrite Hsc.
    cbn [bind py_contains].
    exists (mkExn TypeError (py "argument is not iterable")). split; reflexivity.
Qed.

Lemma null_serverContent_is_dropped_witness :
  let text := wire "{'serverContent': null}" in
  let d := [(py "serverContent", JNull)] in
  @json_loads example_runtime text = Ok (JObject d)
  /\ @ServerEvent.model_validate example_runtime (JObject d)
     = Ok (ServerEvent.mk None None None None)
  /\ fst (@parse_server_event example_runtime text []) = Returns None.
Proof.
  intros text d.
  assert (Hj : @json_loads example_runtime text = Ok (JObject d))
    by (vm_compute; reflexivity).
  split; [exact Hj | ]. split; [vm_compute; reflexivity | ].
  destruct (@null_serverContent_is_dropped example_runtime text d [] Hj eq_refl)
    as [_ (e & _ & He)].
  rewrite He. reflexivity.
Defined.

(** * Further properties of the module *)

(** ** How a decoding succeeds *)

Lemma bind_Ok {A B} (r : result A) (k : A -> result B) (b : B) :
  bind r k = Ok b <-> exists a, r = Ok a /\ k a = Ok b.
Proof.
  destruct r as [a | e]; simpl; split.
  - intros Hk. exists a. split; [reflexivity | exact Hk].
  - intros (a' & [= <-] & Hk). exact Hk.
  - discriminate.
  - intros (a' & Ha & _). discriminate.
Qed.

Lemma in_field_Ok {A} (k : pystr) (r : result A) (a : A) :
  in_field k r = Ok a <-> r = Ok a.
Proof. destruct r; simpl; split; intros Hr; try discriminate; exact Hr. Qed.

Lemma as_model_Ok (j : json) (d : dict) : as_model j = Ok d <-> j = JObject d.
Proof.
  destruct j; cbv [as_model invalid raise]; split; intros Hj; try discriminate;
    inversion Hj; reflexivity.
Qed.

Lemma validate_optional_Ok {A} (v : validator A) (j : json) (o : option A) :
  validate_optional v j = Ok o <->
  (j = JNull /\ o = None) \/ (j <> JNull /\ exists x, v j = Ok x /\ o = Some x).
Proof.
  destruct j; simpl;
    try (rewrite bind_Ok; split;
         [ intros (x & Hx & [= <-]); right; split; [discriminate | eauto]
         | intros [[? _] | [_ (x & Hx & ->)]]; [discriminate | eauto] ]).
  split.
  - intros [= <-]. left. split; reflexivity.
  - intros [[_ ->] | [Hj _]]; [reflexivity | congruence].
Qed.

Lemma required_Ok {A} (d : dict) (k : string) (v : validator A) (a : A) :
  required d k v = Ok a <-> exists j, dict_get (py k) d = Some j /\ v j = Ok a.
Proof.
  unfold required. destruct (dict_get (py k) d) as [j | ].
  - rewrite in_field_Ok. split; [eauto | intros (j' & [= <-] & Hv); exact Hv].
  - simpl. split; [discriminate | intros (j & Hj & _); discriminate].
Qed.

Lemma with_default_Ok {A} (d : dict) (k : string) (v : validator A) (dflt a : A) :
  with_default d k v dflt = Ok a <->
  (dict_get (py k) d = None /\ a = dflt)
  \/ exists j, dict_get (py k) d = Some j /\ v j = Ok a.
Proof.
  unfold with_default. destruct (dict_get (py k) d) as [j | ].
  - rewrite in_field_Ok. split.
    + eauto.
    + intros [[? _] | (j' & [= <-] & Hv)]; [discriminate | exact Hv].
  - split.
    + intros [= <-]. left. split; reflexivity.
    + intros [[_ ->] | (j & Hj & _)]; [reflexivity | discriminate].
Qed.

(** An optional field is absent when the key is missing or holds [null],
    and otherwise holds what its validator reads. *)
Lemma optional_Ok {A} (d : dict) (k : string) (v : validator A) (o : option A) :
  optional d k v = Ok o <->
  (absent_or_null (dict_get (py k) d) /\ o = None)
  \/ exists j x, dict_get (py k) d = Some j /\ j <> JNull /\ v j = Ok x /\ o = Some x.
Proof.
  unfold optional. rewrite with_default_Ok. split.
  - intros [[Hk ->] | (j & Hk & Hv)].
    + left. split; [left; exact Hk | reflexivity].
    + apply validate_optional_Ok in Hv.
      destruct Hv as [[-> ->] | [Hj (x & Hx & ->)]].
      * left. split; [right; exact Hk | reflexivity].
      * right. exists j, x. auto.
  - intros [[[Hk | Hk] ->] | (j & x & Hk & Hj & Hx & ->)].
    + left. split; [exact Hk | reflexivity].
    + right. exists JNull. split; [exact Hk | reflexivity].
    + right. exists j. split; [exact Hk | ].
      apply validate_optional_Ok. right. split; [exact Hj | eauto].
Qed.

Lemma optional_absent_iff {A} (d : dict) (k : string) (v : validator A) (o : option A) :
  optional d k v = Ok o -> (o = None <-> absent_or_null (dict_get (py k) d)).
Proof.
  intros Ho. apply optional_Ok in Ho.
  destruct Ho as [[Habs ->] | (j & x & Hk & Hnn & _ & ->)].
  - tauto.
  - split; [discriminate | ]. intros [Habs | Habs]; congruence.
Qed.

(** The event that [ServerEvent] reads from an object, field by field. *)
Lemma ServerEvent_Ok `{Runtime} (d : dict) (evt : ServerEvent.t) :
  ServerEvent.model_validate (JObject d) = Ok evt <->
  optional d "setupComplete" SetupComplete.model_validate
    = Ok (ServerEvent.setupComplete evt)
  /\ optional d "serverContent" ServerContent.model_validate
    = Ok (ServerEvent.serverContent evt)
  /\ optional d "toolCall" ToolCall.model_validate = Ok (ServerEvent.toolCall evt)
  /\ optional d "usageMetadata" UsageMetadata.model_validate
    = Ok (ServerEvent.usageMetadata evt).
Proof.
  unfold ServerEvent.model_validate. cbn [as_model bind].
  split.
  - intros Hok.
    apply bind_Ok in Hok as (a & Ha & Hok). apply bind_Ok in Hok as (b & Hb & Hok).
    apply bind_Ok in Hok as (c & Hc & Hok). apply bind_Ok in Hok as (e & He & Hok).
    injection Hok as <-. simpl. auto.
  - intros (Ha & Hb & Hc & He). rewrite Ha, Hb, Hc, He. destruct evt. reflexivity.
Qed.

(** A value that [ServerContent] reads is an object. *)
Lemma ServerContent_Ok_object `{Runtime} (j : json) (c : ServerContent.t) :
  ServerContent.model_validate j = Ok c -> exists o, j = JObject o.
Proof.
  unfold ServerContent.model_validate. intros Hok.
  apply bind_Ok in Hok as (o & Ho & _). apply as_model_Ok in Ho. eauto.
Qed.

(** The [try] block gives an event exactly when the text is a JSON object
    that [ServerEvent] accepts and whose [serverContent] is not [null]. *)
Lemma try_body_Ok `{Runtime} (message_str : pystr) (evt : ServerEvent.t) :
  try_body message_str = Ok evt <->
  exists d, json_loads message_str = Ok (JObject d)
            /\ dict_get (py "serverContent") d <> Some JNull
            /\ ServerEvent.model_validate (JObject d) = Ok evt.
Proof.
  unfold try_body. split.
  - intros Hok. apply bind_Ok in Hok as (j & Hj & Hok).
    apply bind_Ok in Hok as (b & Hb & Hok). apply bind_Ok in Hok as ([] & Hprobe & Hok).
    assert (Hobj : exists d, j = JObject d).
    { unfold ServerEvent.model_validate in Hok.
      apply bind_Ok in Hok as (d & Hd & _). apply as_model_Ok in Hd. eauto. }
    destruct Hobj as [d ->].
    exists d. split; [exact Hj | ]. split; [ | exact Hok].
    intros Hnull. cbn [py_contains] in Hb. rewrite Hnull in Hb. injection Hb as <-.
    cbn [py_getitem] in Hprobe. rewrite Hnull in Hprobe. discriminate.
  - intros (d & Hj & Hsc & Hok). rewrite Hj. cbn [bind].
    rewrite <- Hok. 
    assert (Hcases : dict_get (py "serverContent") d = None
                     \/ exists o, dict_get (py "serverContent") d = Some (JObject o)).
    { apply ServerEvent_Ok in Hok as (_ & Hc & _).
      apply optional_Ok in Hc as [[[Hk | Hk] _] | (j & x & Hk & _ & Hx & _)].
      - left. exact Hk.
      - contradiction.
      - right. apply ServerContent_Ok_object in Hx as [o ->]. eauto. }
    cbn [py_contains py_getitem bind].
    destruct Hcases as [-> | [o ->]]; reflexivity.
Qed.

(** ** [ContentPart]: three optional fields *)

Lemma optional_field_Ok {A} (d : dict) (k : string) (v : validator A) (o : option A) :
  optional d k v = Ok o <-> optional_field v (dict_get (py k) d) o.
Proof. apply optional_Ok. Qed.

(** C7, as the claim states it, fails: an object with none of the three
    keys is decoded, to a [ContentPart] with no field present, and an
    object with two of them is decoded too. *)
Lemma ContentPart_not_exactly_one :
  (exists p, ContentPart.model_validate (JObject []) = Ok p
             /\ ContentPart.present p = 0%nat)
  /\ (exists p,
        ContentPart.model_validate
          (JObject [(py "text", JStr (py "see the file"));
                    (py "fileData",
                     JObject [(py "mimeType", JStr (py "text/plain"));
                              (py "fileUri", JStr (py "files/abc"))])]) = Ok p
        /\ ContentPart.present p = 2%nat).
Proof. split; eexists; split; reflexivity. Qed.

(** C7, amended. The three fields of a [ContentPart] are optional one by
    one.  An object is decoded exactly when each of the keys [text],
    [inlineData] and [fileData], on its own, is missing, holds [null], or
    holds a value of the field's type (a string, a [MediaChunk], a
    [FileData]); how many of the three are present plays no part.  So an
    object with none of the keys, with exactly one, or with several is
    accepted, and every combination of present and absent fields is the
    decoding of the object that has just the keys of the present ones. *)
Theorem ContentPart_fields_are_independent :
  (forall (d : dict) (p : ContentPart.t),
     ContentPart.model_validate (JObject d) = Ok p <->
     optional_field validate_str (dict_get (py "text") d) (ContentPart.text p)
     /\ optional_field MediaChunk.model_validate (dict_get (py "inlineData") d)
          (ContentPart.inlineData p)
     /\ optional_field FileData.model_validate (dict_get (py "fileData") d)
          (ContentPart.fileData p))
  /\ (forall (text : option pystr) (inlineData : option MediaChunk.t)
             (fileData : option FileData.t),
        ContentPart.model_validate
          (JObject
             (match text with
              | Some s => [(py "text", JStr s)]
              | None => []
              end
              ++ match inlineData with
                 | Some c => [(py "inlineData",
                               JObject [(py "mimeType", JStr (MediaChunk.mimeType c));
                                        (py "data", JStr (MediaChunk.data c))])]
                 | None => []
                 end
              ++ match fileData with
                 | Some f => [(py "fileData",
                               JObject [(py "mimeType", JStr (FileData.mimeType f));
                                        (py "fileUri", JStr (FileData.fileUri f))])]
                 | None => []
                 end))
        = Ok (ContentPart.mk text inlineData fileData)).
Proof.
  split.
  - intros d p. unfold ContentPart.model_validate. cbn [as_model bind].
    rewrite <- !optional_field_Ok. split.
    + intros Hok.
      apply bind_Ok in Hok as (t & Ht & Hok). apply bind_Ok in Hok as (i & Hi & Hok).
      apply bind_Ok in Hok as (f & Hf & [= <-]). simpl. auto.
    + intros (Ht & Hi & Hf). rewrite Ht, Hi, Hf. cbn [bind].
      destruct p; reflexivity.
  - intros text inlineData fileData.
    destruct text, inlineData as [ [] | ], fileData as [ [] | ]; reflexivity.
Qed.

(** ** What [parse_server_event] returns *)

(** X1. [parse_server_event] returns an event, and logs nothing, exactly
    when the text is a JSON object that [ServerEvent] accepts and whose
    [serverContent] key does not hold [null]; the event is the one
    [ServerEvent] reads. *)
Theorem parse_server_event_returns_event_iff `{Runtime} (message_str : pystr)
  (log : sink) (evt : ServerEvent.t) :
  parse_server_event message_str log = (Returns (Some evt), log) <->
  exists d, json_loads message_str = Ok (JObject d)
            /\ dict_get (py "serverContent") d <> Some JNull
            /\ ServerEvent.model_validate (JObject d) = Ok evt.
Proof.
  rewrite <- try_body_Ok. unfold parse_server_event.
  destruct (try_body message_str) as [evt' | e].
  - split; [intros [= ->] | intros [= ->]]; reflexivity.
  - destruct (is_Exception (exn_class e)); split; discriminate.
Qed.

(** X2. A JSON object with none of the four keys of [ServerEvent], such as
    a message of a kind the module does not model, is not a decode
    failure: [parse_server_event] returns an event with every field absent
    and logs nothing. *)
Theorem unmodelled_message_is_an_empty_event `{Runtime} (message_str : pystr)
  (d : dict) (log : sink) :
  json_loads message_str = Ok (JObject d) ->
  dict_get (py "setupComplete") d = None ->
  dict_get (py "serverContent") d = None ->
  dict_get (py "toolCall") d = None ->
  dict_get (py "usageMetadata") d = None ->
  parse_server_event message_str log
  = (Returns (Some (ServerEvent.mk None None None None)), log).
Proof.
  intros Hj H1 H2 H3 H4.
  assert (Hok : try_body message_str = Ok (ServerEvent.mk None None None None)).
  { apply try_body_Ok. exists d. split; [exact Hj | ]. split; [congruence | ].
    unfold ServerEvent.model_validate, optional, with_default.
    cbn [as_model bind]. rewrite H1, H2, H3, H4. reflexivity. }
  unfold parse_server_event. rewrite Hok. reflexivity.
Qed.

Lemma unmodelled_message_is_an_empty_event_witness :
  let text := wire "{'goAway': {'timeLeft': '10s'}}" in
  @json_loads example_runtime text
  = Ok (JObject [(py "goAway", JObject [(py "timeLeft", JStr (py "10s"))])])
  /\ @parse_server_event example_runtime text []
     = (Returns (Some (ServerEvent.mk None None None None)), []).
Proof.
  intros text.
  assert (Hj : @json_loads example_runtime text
               = Ok (JObject [(py "goAway", JObject [(py "timeLeft", JStr (py "10s"))])]))
    by (vm_compute; reflexivity).
  split; [exact Hj | ].
  apply (@unmodelled_message_is_an_empty_event example_runtime text _ [] Hj);
    reflexivity.
Defined.

(** X3. In the event that [parse_server_event] returns, a field is absent
    exactly when its key is missing from the object or holds [null]; for
    [serverContent], exactly when the key is missing. *)
Theorem event_fields_are_present_iff_given `{Runtime} (message_str : pystr)
  (d : dict) (log : sink) (evt : ServerEvent.t) :
  json_loads message_str = Ok (JObject d) ->
  fst (parse_server_event message_str log) = Returns (Some evt) ->
  (ServerEvent.setupComplete evt = None
   <-> absent_or_null (dict_get (py "setupComplete") d))
  /\ (ServerEvent.serverContent evt = None
      <-> dict_get (py "serverContent") d = None)
  /\ (ServerEvent.toolCall evt = None <-> absent_or_null (dict_get (py "toolCall") d))
  /\ (ServerEvent.usageMetadata evt = None
      <-> absent_or_null (dict_get (py "usageMetadata") d)).
Proof.
  intros Hj Hret.
  assert (Hok : try_body message_str = Ok evt).
  { unfold parse_server_event in Hret.
    destruct (try_body message_str) as [evt' | e]; [simpl in Hret; congruence | ].
    destruct (is_Exception (exn_class e)); discriminate. }
  apply try_body_Ok in Hok as (d' & Hj' & Hsc & Hok).
  rewrite Hj in Hj'. injection Hj' as <-.
  apply ServerEvent_Ok in Hok as (H1 & H2 & H3 & H4).
  pose proof (optional_absent_iff _ _ _ H2) as Hc.
  repeat split; try (apply (optional_absent_iff _ _ _ H1));
    try (apply (optional_absent_iff _ _ _ H3));
    try (apply (optional_absent_iff _ _ _ H4)).
  - intros Hn. apply Hc in Hn. destruct Hn as [Hn | Hn]; [exact Hn | contradiction].
  - intros Hn. apply Hc. left. exact Hn.
Qed.

Lemma event_fields_are_present_iff_given_witness :
  let text := wire "{'setupComplete': {}, 'toolCall': null}" in
  exists evt,
    fst (@parse_server_event example_runtime text []) = Returns (Some evt)
    /\ ServerEvent.setupComplete evt <> None
    /\ ServerEvent.toolCall evt = None.
Proof.
  intros text.
  assert (Hj : @json_loads example_runtime text
               = Ok (JObject [(py "setupComplete", JObject []); (py "toolCall", JNull)]))
    by (vm_compute; reflexivity).
  eexists. split; [vm_compute; reflexivity | ].
  destruct (@event_fields_are_present_iff_given example_runtime text _ []
              _ Hj ltac:(vm_compute; reflexivity)) as (H1 & _ & H3 & _).
  split.
  - intros Hn. apply H1 in Hn. destruct Hn as [Hn | Hn]; discriminate Hn.
  - apply H3. right. reflexivity.
Defined.

(** X4. A fault in one field rejects the whole event: when a key of
    [ServerEvent] holds a value, other than [null], that the model of the
    field rejects, [parse_server_event] returns [None] and logs the fault,
    whatever the other fields hold. *)
Theorem a_rejected_field_rejects_the_event `{Runtime} (message_str : pystr)
  (d : dict) (log : sink) (k : string) (j : json) :
  json_loads message_str = Ok (JObject d) ->
  dict_get (py k) d = Some j ->
  j <> JNull ->
  (k = "setupComplete"%string /\ rejected (SetupComplete.model_validate j))
  \/ (k = "serverContent"%string /\ rejected (ServerContent.model_validate j))
  \/ (k = "toolCall"%string /\ rejected (ToolCall.model_validate j))
  \/ (k = "usageMetadata"%string /\ rejected (UsageMetadata.model_validate j)) ->
  exists e, parse_server_event message_str log
            = (Returns None, handler e message_str log).
Proof.
  intros Hj Hk Hnn Hrej. unfold parse_server_event.
  pose proof (try_body_safe message_str) as Hsafe.
  destruct (try_body message_str) as [evt | e] eqn:Hbody.
  - exfalso. apply try_body_Ok in Hbody as (d' & Hj' & _ & Hok).
    rewrite Hj in Hj'. injection Hj' as <-.
    apply ServerEvent_Ok in Hok as (H1 & H2 & H3 & H4).
    assert (Hfield : forall A (v : validator A) (o : option A),
               optional d k v = Ok o -> rejected (v j) -> False).
    { intros A v o Ho [e He]. apply optional_Ok in Ho.
      destruct Ho as [[[Habs | Habs] _] | (j' & x & Hk' & _ & Hx & _)]; congruence. }
    destruct Hrej as [[-> Hr] | [[-> Hr] | [[-> Hr] | [-> Hr]]]]; eauto.
  - exists e. rewrite (Hsafe e eq_refl). reflexivity.
Qed.

Lemma a_rejected_field_rejects_the_event_witness :
  let text := wire "{'toolCall': {'functionCalls': [{'name': 'f', 'args': {}}]}, 'setupComplete': {}}" in
  exists e, @parse_server_event example_runtime text []
            = (Returns None, handler e text []).
Proof.
  intros text.
  eapply (@a_rejected_field_rejects_the_event example_runtime text _ [] "toolCall").
  - vm_compute. reflexivity.
  - vm_compute. reflexivity.
  - discriminate.
  - right. right. left. split; [reflexivity | ]. eexists. vm_compute. reflexivity.
Defined.

(** ** The excerpt of the raw text in the log *)

Lemma truncated_message_length (message_str : pystr) :
  (List.length (truncated_message message_str) <= 203
   /\ List.length (truncated_message message_str) <= List.length message_str + 2
   /\ firstn 200 (truncated_message message_str) = firstn 200 message_str)%nat.
Proof.
  unfold truncated_message.
  destruct (Nat.ltb_spec 200 (List.length message_str)) as [Hlong | Hshort].
  - rewrite length_app, length_firstn.
    change (List.length (py "...")) with 3%nat.
    repeat split; try lia.
    rewrite firstn_app, length_firstn.
    replace (200 - Nat.min 200 (List.length message_str))%nat with 0%nat by lia.
    rewrite firstn_firstn. simpl. rewrite app_nil_r. reflexivity.
  - repeat split; lia.
Qed.

(** X5. The excerpt of the raw text in the second record that a failing
    [parse_server_event] logs has at most 203 characters, is at most two
    characters longer than the text, and agrees with the text on the first
    200 characters. *)
Theorem logged_excerpt_is_bounded `{Runtime} (message_str : pystr) (log : sink) :
  fst (parse_server_event message_str log) = Returns None ->
  exists first excerpt,
    snd (parse_server_event message_str log)
    = log ++ [first; (ERROR, py "Raw message (truncated): " ++ excerpt)]
    /\ (List.length excerpt <= 203
        /\ List.length excerpt <= List.length message_str + 2
        /\ firstn 200 excerpt = firstn 200 message_str)%nat.
Proof.
  unfold parse_server_event.
  pose proof (try_body_safe message_str) as Hsafe.
  destruct (try_body message_str) as [evt | e]; [discriminate | ].
  rewrite (Hsafe e eq_refl). intros _.
  exists (ERROR, py "Error parsing server event: " ++ exn_str e),
         (truncated_message message_str).
  split; [ | apply truncated_message_length ].
  simpl. unfold handler, logger_error. rewrite <- app_assoc. reflexivity.
Qed.

Lemma logged_excerpt_is_bounded_witness :
  let text := repeat 120%N 201 in
  fst (@parse_server_event example_runtime text []) = Returns None
  /\ exists first excerpt,
       snd (@parse_server_event example_runtime text [])
       = [] ++ [first; (ERROR, py "Raw message (truncated): " ++ excerpt)]
       /\ (List.length excerpt <= 203
           /\ List.length excerpt <= List.length text + 2
           /\ firstn 200 excerpt = firstn 200 text)%nat.
Proof.
  intros text.
  assert (Hfail : fst (@parse_server_event example_runtime text []) = Returns None)
    by (vm_compute; reflexivity).
  split; [exact Hfail | ].
  exact (@logged_excerpt_is_bounded example_runtime text [] Hfail).
Defined.

(** ** Enumerations: which member a wire string names *)

Lemma validate_enum_Ok {A} (value : A -> pystr) (members : list A) (j : json) (m : A) :
  (forall a b, In a members -> In b members -> value a = value b -> a = b) ->
  In m members ->
  validate_enum value members j = Ok m <-> j = JStr (value m).
Proof.
  intros Hinj Hm. unfold validate_enum. split.
  - destruct j; try discriminate.
    destruct (find _ members) as [m' | ] eqn:Hfind; [ | discriminate ].
    intros [= ->]. apply find_some in Hfind as [_ Heq].
    apply pystr_eqb_eq in Heq. rewrite Heq. reflexivity.
  - intros ->.
    destruct (find (fun m0 => pystr_eqb (value m) (value m0)) members) as [m' | ] eqn:Hfind.
    + apply find_some in Hfind as [Hin Heq]. apply pystr_eqb_eq in Heq.
      rewrite (Hinj m m' Hm Hin Heq). reflexivity.
    + exfalso. pose proof (find_none _ _ Hfind m Hm) as Hno. simpl in Hno.
      assert (Heq : pystr_eqb (value m) (value m) = true)
        by (apply pystr_eqb_eq; reflexivity).
      congruence.
Qed.

Ltac distinct_values :=
  intros [] [] _ _ Heq; first [ reflexivity | vm_compute in Heq; discriminate Heq ].

Ltac listed := intros []; simpl; tauto.

(** X6. Each enumeration of the module is decoded from the wire string of
    its member and from nothing else, and distinct members have distinct
    wire strings: decoding a value gives member [m] exactly when the value
    is the string of [m].  This holds for the role of a [Turn], for
    [Modality] and for the two sensitivity enumerations. *)
Theorem enum_members_decode_from_their_strings (j : json) :
  (forall r, Turn.validate_role j = Ok r <-> j = JStr (Turn.role_value r))
  /\ (forall m, Modality.validate j = Ok m <-> j = JStr (Modality.value m))
  /\ (forall m, StartSensitivity.validate j = Ok m
                <-> j = JStr (StartSensitivity.value m))
  /\ (forall m, EndSensitivity.validate j = Ok m <-> j = JStr (EndSensitivity.value m)).
Proof.
  split; [ | split; [ | split ] ]; intros m;
    (apply validate_enum_Ok; [distinct_values | revert m; listed]).
Qed.

(** ** Function calls and lists *)

Lemma validate_str_Ok (j : json) (s : pystr) : validate_str j = Ok s <-> j = JStr s.
Proof.
  destruct j; cbv [validate_str invalid raise]; split; intros Hj; try discriminate;
    inversion Hj; reflexivity.
Qed.

Lemma validate_dict_Ok (j : json) (d : dict) : validate_dict j = Ok d <-> j = JObject d.
Proof.
  destruct j; cbv [validate_dict invalid raise]; split; intros Hj; try discriminate;
    inversion Hj; reflexivity.
Qed.

Lemma validate_items_Ok {A} (v : validator A) (items : list json) (xs : list A) :
  forall i, validate_items v i items = Ok xs
            <-> Forall2 (fun j x => v j = Ok x) items xs.
Proof.
  revert xs. induction items as [ | j items IH ]; intros xs i; simpl.
  - split.
    + intros [= <-]. constructor.
    + intros Hall. inversion Hall. reflexivity.
  - rewrite bind_Ok. split.
    + intros (x & Hx & Hrest). apply in_field_Ok in Hx.
      apply bind_Ok in Hrest as (xs' & Hxs & [= <-]).
      constructor; [exact Hx | apply (IH xs' (S i)), Hxs].
    + intros Hall. inversion Hall as [ | j' x items' xs' Hx Hrest ]; subst.
      exists x. split; [apply in_field_Ok, Hx | ].
      apply bind_Ok. exists xs'. split; [apply IH, Hrest | reflexivity].
Qed.

(** A list is read item by item: as many items, in the same order. *)
Lemma validate_list_Ok {A} (v : validator A) (j : json) (xs : list A) :
  validate_list v j = Ok xs
  <-> exists items, j = JArray items /\ Forall2 (fun j x => v j = Ok x) items xs.
Proof.
  destruct j; simpl;
    try (split; [discriminate | intros (items & Hj & _); discriminate]).
  rewrite validate_items_Ok. split.
  - intros Hall. exists items. split; [reflexivity | exact Hall].
  - intros (items' & [= <-] & Hall). exact Hall.
Qed.

(** X7. A [FunctionCall] is decoded exactly from an object whose [id] and
    [name] are strings and whose [args] is an object; all three keys are
    needed, and [args] is kept as it is. *)
Theorem FunctionCall_decodes_iff (d : dict) (fc : FunctionCall.t) :
  FunctionCall.model_validate (JObject d) = Ok fc <->
  dict_get (py "id") d = Some (JStr (FunctionCall.id fc))
  /\ dict_get (py "name") d = Some (JStr (FunctionCall.name fc))
  /\ dict_get (py "args") d = Some (JObject (FunctionCall.args fc)).
Proof.
  unfold FunctionCall.model_validate. cbn [as_model bind]. split.
  - intros Hok.
    apply bind_Ok in Hok as (i & Hi & Hok). apply bind_Ok in Hok as (n & Hn & Hok).
    apply bind_Ok in Hok as (a & Ha & [= <-]). simpl.
    apply required_Ok in Hi as (ji & Hi & Hvi). apply validate_str_Ok in Hvi.
    apply required_Ok in Hn as (jn & Hn & Hvn). apply validate_str_Ok in Hvn.
    apply required_Ok in Ha as (ja & Ha & Hva). apply validate_dict_Ok in Hva.
    subst. auto.
  - intros (Hi & Hn & Ha). unfold required. rewrite Hi, Hn, Ha.
    destruct fc. reflexivity.
Qed.

(** X8. The lists of a tool call and of a model turn are decoded item by
    item: the result has one entry for each item of the wire list, in the
    same order, each the decoding of its item; one item that is rejected
    rejects the list. *)
Theorem lists_are_decoded_item_by_item (d : dict) :
  (forall tc, ToolCall.model_validate (JObject d) = Ok tc <->
     exists items, dict_get (py "functionCalls") d = Some (JArray items)
       /\ Forall2 (fun j fc => FunctionCall.model_validate j = Ok fc)
                  items (ToolCall.functionCalls tc))
  /\ (forall mt, ModelTurn.model_validate (JObject d) = Ok mt <->
        exists items, dict_get (py "parts") d = Some (JArray items)
          /\ Forall2 (fun j p => Part.model_validate j = Ok p)
                     items (ModelTurn.parts mt)).
Proof.
  split.
  - intros tc. unfold ToolCall.model_validate. cbn [as_model bind].
    rewrite bind_Ok. split.
    + intros (l & Hl & [= <-]). simpl.
      apply required_Ok in Hl as (j & Hj & Hv).
      apply validate_list_Ok in Hv as (items & -> & Hall). eauto.
    + intros (items & Hk & Hall). exists (ToolCall.functionCalls tc).
      split; [ | destruct tc; reflexivity ].
      apply required_Ok. exists (JArray items). split; [exact Hk | ].
      apply validate_list_Ok. eauto.
  - intros mt. unfold ModelTurn.model_validate. cbn [as_model bind].
    rewrite bind_Ok. split.
    + intros (l & Hl & [= <-]). simpl.
      apply required_Ok in Hl as (j & Hj & Hv).
      apply validate_list_Ok in Hv as (items & -> & Hall). eauto.
    + intros (items & Hk & Hall). exists (ModelTurn.parts mt).
      split; [ | destruct mt; reflexivity ].
      apply required_Ok. exists (JArray items). split; [exact Hk | ].
      apply validate_list_Ok. eauto.
Qed.

(** ** The audio and video constructors *)

Lemma b64encode_length (raw : list byte) :
  List.length (base64.b64encode raw) = (4 * ((List.length raw + 2) / 3))%nat.
Proof.
  induction raw as [ | a | a b | a b c raw IH ] using list_ind3;
    cbn [base64.b64encode List.length]; try reflexivity.
  rewrite IH.
  replace (S (S (S (List.length raw))) + 2)%nat
    with ((List.length raw + 2) + 1 * 3)%nat by lia.
  rewrite Nat.div_add by discriminate. lia.
Qed.

Lemma py_inj (a b : string) : py a = py b -> a = b.
Proof.
  unfold py. intros Heq.
  rewrite <- (string_of_list_ascii_of_string a), <- (string_of_list_ascii_of_string b).
  f_equal. revert Heq. generalize (list_ascii_of_string a) (list_ascii_of_string b).
  induction l as [ | x l IH ]; intros [ | y l' ]; simpl; try discriminate;
    [reflexivity | ].
  intros [= Hxy Hl]. f_equal; [ | apply IH, Hl ].
  rewrite <- (ascii_N_embedding x), <- (ascii_N_embedding y), Hxy. reflexivity.
Qed.

Lemma str_of_int_inj `{Runtime} (n m : Z) (s : pystr) :
  str_of_int n = Ok s -> str_of_int m = Ok s -> n = m.
Proof.
  intros Hn Hm. apply str_of_int_Ok in Hn, Hm. rewrite Hn in Hm. apply py_inj in Hm.
  pose proof (str_of_int_reads_back n) as Rn.
  pose proof (str_of_int_reads_back m) as Rm.
  rewrite Hm in Rn. congruence.
Qed.

(** X9. When [from_raw_audio] builds a message, which it does for every
    sample rate within the interpreter's digit limit, the [data] of its
    chunk is ASCII text of four characters for every three bytes of audio,
    the last group rounded up: its length is [4 * ceil(len(raw_audio) / 3)],
    and it is empty exactly for empty audio. *)
Theorem from_raw_audio_data_size `{Runtime} (raw_audio : list byte) (sample_rate : Z) :
  within_digit_limit sample_rate ->
  exists chunk,
    AudioInputMessage.from_raw_audio raw_audio sample_rate
    = Ok (AudioInputMessage.mk (RealtimeInput.mk [chunk]))
    /\ List.length (MediaChunk.data chunk)
       = (4 * ((List.length raw_audio + 2) / 3))%nat
    /\ Forall (fun c => (c < 128)%N) (MediaChunk.data chunk)
    /\ (MediaChunk.data chunk = [] <-> raw_audio = []).
Proof.
  intros Hin. unfold AudioInputMessage.from_raw_audio.
  rewrite (str_of_int_within Hin). cbn [bind].
  eexists. split; [reflexivity | ]. simpl. unfold base64.decode_ascii.
  split; [rewrite length_map; apply b64encode_length | ]. split.
  - apply Forall_map. apply b64encode_ascii.
  - destruct raw_audio as [ | a [ | b [ | c raw ] ] ]; simpl; split;
      try discriminate; reflexivity.
Qed.

Lemma from_raw_audio_data_size_witness :
  @within_digit_limit example_runtime 16000
  /\ exists chunk,
       @AudioInputMessage.from_raw_audio example_runtime ["a"%byte; "b"%byte] 16000
       = Ok (AudioInputMessage.mk (RealtimeInput.mk [chunk]))
       /\ List.length (MediaChunk.data chunk) = 4%nat.
Proof.
  assert (Hin : @within_digit_limit example_runtime 16000).
  { right. apply Z.ltb_lt. vm_compute. reflexivity. }
  split; [exact Hin | ].
  destruct (@from_raw_audio_data_size example_runtime ["a"%byte; "b"%byte] 16000 Hin)
    as (chunk & Hmsg & Hlen & _).
  exists chunk. split; [exact Hmsg | exact Hlen].
Defined.

(** X10. [from_raw_audio] loses nothing: two calls that build the same
    message were given the same bytes and the same sample rate. *)
Theorem from_raw_audio_injective `{Runtime} (raw1 raw2 : list byte) (rate1 rate2 : Z)
  (msg : AudioInputMessage.t) :
  AudioInputMessage.from_raw_audio raw1 rate1 = Ok msg ->
  AudioInputMessage.from_raw_audio raw2 rate2 = Ok msg ->
  raw1 = raw2 /\ rate1 = rate2.
Proof.
  unfold AudioInputMessage.from_raw_audio. intros H1 H2.
  apply bind_Ok in H1 as (s1 & Hs1 & [= <-]).
  apply bind_Ok in H2 as (s2 & Hs2 & [= Hmime Hdata]).
  subst s2. split.
  - pose proof (b64decode_str_data raw1) as Hd. rewrite <- Hdata in Hd.
    rewrite b64decode_str_data in Hd. congruence.
  - exact (str_of_int_inj _ _ Hs1 Hs2).
Qed.

Lemma from_raw_audio_injective_witness :
  exists msg,
    @AudioInputMessage.from_raw_audio example_runtime ["a"%byte; "b"%byte] 16000 = Ok msg
    /\ (["a"%byte; "b"%byte] = ["a"%byte; "b"%byte] /\ 16000 = 16000).
Proof.
  assert (Hval : @AudioInputMessage.from_raw_audio example_runtime ["a"%byte; "b"%byte] 16000
                 = Ok (AudioInputMessage.mk (RealtimeInput.mk
                         [MediaChunk.mk (py "audio/pcm;rate=16000") (py "YWI=")])))
    by (vm_compute; reflexivity).
  eexists. split; [exact Hval | ].
  exact (@from_raw_audio_injective example_runtime _ _ _ _ _ Hval Hval).
Defined.

(** X11. [from_image_frame] hands the frame's format, size and pixels to
    the image encoder.  When the encoder gives the bytes of a JPEG file,
    the message has a single chunk of type ["image/jpeg"] whose [data]
    base64-decodes to exactly those bytes; when the encoder raises, the
    same exception leaves the constructor and no message is built. *)
Theorem from_image_frame_wraps_the_encoder
  (encode_jpeg : pystr -> Z * Z -> list byte -> result (list byte))
  (frame : ImageRawFrame.t) :
  match encode_jpeg (ImageRawFrame.format frame) (ImageRawFrame.size frame)
                    (ImageRawFrame.image frame) with
  | Ok jpeg =>
      exists chunk,
        VideoInputMessage.from_image_frame encode_jpeg frame
        = Ok (VideoInputMessage.mk (RealtimeInput.mk [chunk]))
        /\ MediaChunk.mimeType chunk = py "image/jpeg"
        /\ base64.b64decode_str (MediaChunk.data chunk) = Some jpeg
  | Raise e => VideoInputMessage.from_image_frame encode_jpeg frame = Raise e
  end.
Proof.
  unfold VideoInputMessage.from_image_frame.
  destruct (encode_jpeg _ _ _) as [jpeg | e]; cbn [bind]; [ | reflexivity ].
  eexists. split; [reflexivity | ]. split; [reflexivity | ].
  apply b64decode_str_data.
Qed.

(** ** Client content and session setup *)

(** X12. In a [ClientContent], a missing [turnComplete] key is [False] and
    missing or [null] [turns] are absent, but a [turnComplete] that is
    [null] is rejected: the field has a default and is not optional. *)
Theorem ClientContent_turnComplete `{Runtime} (d : dict) :
  (dict_get (py "turnComplete") d = None ->
   match ClientContent.model_validate (JObject d) with
   | Ok c =>
       ClientContent.turnComplete c = false
       /\ (absent_or_null (dict_get (py "turns") d) -> ClientContent.turns c = None)
   | Raise _ => ~ absent_or_null (dict_get (py "turns") d)
   end)
  /\ (dict_get (py "turnComplete") d = Some JNull ->
      rejected (ClientContent.model_validate (JObject d))).
Proof.
  unfold ClientContent.model_validate. cbn [as_model bind]. split.
  - intros Htc.
    destruct (optional d "turns" (validate_list Turn.model_validate)) as [o | e] eqn:Ho;
      cbn [bind].
    + unfold with_default. rewrite Htc. cbn [bind]. split; [reflexivity | ].
      intros Habs. simpl. apply optional_Ok in Ho.
      destruct Ho as [[_ ->] | (j & x & Hk & Hnn & _ & _)]; [reflexivity | ].
      destruct Habs as [Habs | Habs]; congruence.
    + intros Habs.
      assert (Hnone : optional d "turns" (validate_list Turn.model_validate) = Ok None)
        by (apply optional_Ok; left; split; [exact Habs | reflexivity]).
      congruence.
  - intros Htc. apply rejected_bind_later. intros turns.
    apply rejected_bind. eapply with_default_rejected; [exact Htc | ].
    eexists. reflexivity.
Qed.

Lemma ClientContent_turnComplete_witness :
  dict_get (py "turnComplete") [(py "turnComplete", JNull)] = Some JNull
  /\ rejected (@ClientContent.model_validate example_runtime
                 (JObject [(py "turnComplete", JNull)]))
  /\ @ClientContent.model_validate example_runtime (JObject [])
     = Ok (ClientContent.mk None false).
Proof.
  split; [reflexivity | ]. split.
  - apply (proj2 (@ClientContent_turnComplete example_runtime
                    [(py "turnComplete", JNull)])). reflexivity.
  - reflexivity.
Defined.

(** X13. A [Config] is decoded only from an object whose [setup] is an
    object with a string under [model], and the decoded model name is that
    string: the field has no default, at either level. *)
Theorem Config_needs_a_model `{Runtime} (d : dict) (c : Config.t) :
  Config.model_validate (JObject d) = Ok c ->
  exists o, dict_get (py "setup") d = Some (JObject o)
            /\ dict_get (py "model") o = Some (JStr (Setup.model (Config.setup c))).
Proof.
  unfold Config.model_validate. cbn [as_model bind]. intros Hok.
  apply bind_Ok in Hok as (s & Hs & [= <-]). simpl.
  apply required_Ok in Hs as (j & Hj & Hv).
  unfold Setup.model_validate in Hv.
  apply bind_Ok in Hv as (o & Ho & Hv). apply as_model_Ok in Ho. subst j.
  exists o. split; [exact Hj | ].
  apply bind_Ok in Hv as (m & Hm & Hv).
  apply required_Ok in Hm as (jm & Hjm & Hvm). apply validate_str_Ok in Hvm. subst jm.
  repeat (apply bind_Ok in Hv as (? & _ & Hv)). injection Hv as <-. exact Hjm.
Qed.

Lemma Config_needs_a_model_witness :
  let d := [(py "setup", JObject [(py "model", JStr (py "models/gemini"))])] in
  let c := Config.mk (Setup.mk (py "models/gemini") None None None None None None) in
  @Config.model_validate example_runtime (JObject d) = Ok c
  /\ exists o, dict_get (py "setup") d = Some (JObject o)
               /\ dict_get (py "model") o = Some (JStr (Setup.model (Config.setup c))).
Proof.
  intros d c.
  assert (Hok : @Config.model_validate example_runtime (JObject d) = Ok c)
    by (vm_compute; reflexivity).
  split; [exact Hok | ].
  exact (@Config_needs_a_model example_runtime d c Hok).
Defined.

(** ** Server content, usage counts, parts and turns *)

Lemma optional_bool_exact `{Runtime} (d : dict) (k : string) (o : option bool) (b : bool) :
  optional d k validate_bool = Ok o -> dict_get (py k) d = Some (JBool b) -> o = Some b.
Proof.
  intros Ho Hk. apply optional_Ok in Ho.
  destruct Ho as [[[Habs | Habs] _] | (j & x & Hk' & _ & Hx & ->)]; try congruence.
  rewrite Hk in Hk'. injection Hk' as <-. simpl in Hx. congruence.
Qed.


(** X14. When the [serverContent] key holds an object and
    [parse_server_event] returns an event, the event's [serverContent] is
    what [ServerContent] reads from that object: a JSON boolean under
    [turnComplete] or [interrupted] is taken as it is, and each of the six
    fields is absent exactly when its key is missing or holds [null]. *)
Theorem serverContent_is_mapped `{Runtime} (message_str : pystr) (d o : dict)
  (log : sink) (evt : ServerEvent.t) :
  json_loads message_str = Ok (JObject d) ->
  dict_get (py "serverContent") d = Some (JObject o) ->
  fst (parse_server_event message_str log) = Returns (Some evt) ->
  exists c,
    ServerEvent.serverContent evt = Some c
    /\ ServerContent.model_validate (JObject o) = Ok c
    /\ (forall b, dict_get (py "turnComplete") o = Some (JBool b) ->
                  ServerContent.turnComplete c = Some b)
    /\ (forall b, dict_get (py "interrupted") o = Some (JBool b) ->
                  ServerContent.interrupted c = Some b)
    /\ (ServerContent.modelTurn c = None
        <-> absent_or_null (dict_get (py "modelTurn") o))
    /\ (ServerContent.interrupted c = None
        <-> absent_or_null (dict_get (py "interrupted") o))
    /\ (ServerContent.turnComplete c = None
        <-> absent_or_null (dict_get (py "turnComplete") o))
    /\ (ServerContent.inputTranscription c = None
        <-> absent_or_null (dict_get (py "inputTranscription") o))
    /\ (ServerContent.outputTranscription c = None
        <-> absent_or_null (dict_get (py "outputTranscription") o))
    /\ (ServerContent.groundingMetadata c = None
        <-> absent_or_null (dict_get (py "groundingMetadata") o)).
Proof.
  intros Hj Hsc Hret.
  assert (Hok : try_body message_str = Ok evt).
  { unfold parse_server_event in Hret.
    destruct (try_body message_str) as [evt' | e]; [simpl in Hret; congruence | ].
    destruct (is_Exception (exn_class e)); discriminate. }
  apply try_body_Ok in Hok as (d' & Hj' & _ & Hok).
  rewrite Hj in Hj'. injection Hj' as <-.
  apply ServerEvent_Ok in Hok as (_ & Hc & _).
  apply optional_Ok in Hc.
  destruct Hc as [[[Habs | Habs] _] | (j & c & Hk & _ & Hv & Hsome)]; try congruence.
  rewrite Hsc in Hk. injection Hk as <-.
  exists c. split; [exact Hsome | ]. split; [exact Hv | ].
  unfold ServerContent.model_validate in Hv. cbn [as_model bind] in Hv.
  apply bind_Ok in Hv as (f1 & H1 & Hv). apply bind_Ok in Hv as (f2 & H2 & Hv).
  apply bind_Ok in Hv as (f3 & H3 & Hv). apply bind_Ok in Hv as (f4 & H4 & Hv).
  apply bind_Ok in Hv as (f5 & H5 & Hv). apply bind_Ok in Hv as (f6 & H6 & Hv).
  injection Hv as <-. simpl.
  split; [intros b; apply optional_bool_exact, H3 | ].
  split; [intros b; apply optional_bool_exact, H2 | ].
  repeat split; eapply optional_absent_iff; eassumption.
Qed.

Lemma serverContent_is_mapped_witness :
  let text := wire "{'serverContent': {'turnComplete': true, 'interrupted': null}}" in
  exists evt c,
    fst (@parse_server_event example_runtime text []) = Returns (Some evt)
    /\ ServerEvent.serverContent evt = Some c
    /\ ServerContent.turnComplete c = Some true
    /\ ServerContent.interrupted c = None
    /\ ServerContent.modelTurn c = None.
Proof.
  intros text.
  destruct (@serverContent_is_mapped example_runtime text
              [(py "serverContent",
                JObject [(py "turnComplete", JBool true); (py "interrupted", JNull)])]
              [(py "turnComplete", JBool true); (py "interrupted", JNull)] []
              (ServerEvent.mk None
                 (Some (ServerContent.mk None None (Some true) None None None))
                 None None))
    as (c & Hc & _ & Htc & _ & Hmt & Hin & _).
  - vm_compute. reflexivity.
  - reflexivity.
  - vm_compute. reflexivity.
  - eexists. exists c. split; [vm_compute; reflexivity | ]. split; [exact Hc | ].
    split; [apply Htc; reflexivity | ].
    split; [apply Hin; right; reflexivity | apply Hmt; left; reflexivity].
Defined.




(** X16. A [Part] of a model turn may hold inline data, text, both or
    neither: every combination is the decoding of some object. *)
Theorem Part_fields_are_independent (inlineData : option InlineData.t)
  (text : option pystr) :
  exists j, Part.model_validate j = Ok (Part.mk inlineData text).
Proof.
  exists (JObject
    [(py "inlineData",
      match inlineData with
      | Some c => JObject [(py "mimeType", JStr (InlineData.mimeType c));
                           (py "data", JStr (InlineData.data c))]
      | None => JNull
      end);
     (py "text", match text with Some s => JStr s | None => JNull end)]).
  destruct inlineData as [ [] | ], text; reflexivity.
Qed.

(** X17. A [Turn] is decoded exactly from an object whose [parts] is a
    list of objects that [ContentPart] accepts, decoded in order, and
    whose [role] is either missing, which gives ["user"], or the string of
    the role. *)
Theorem Turn_decodes_iff (d : dict) (t : Turn.t) :
  Turn.model_validate (JObject d) = Ok t <->
  ((dict_get (py "role") d = None /\ Turn.role t = Turn.user)
   \/ dict_get (py "role") d = Some (JStr (Turn.role_value (Turn.role t))))
  /\ exists items,
       dict_get (py "parts") d = Some (JArray items)
       /\ Forall2 (fun j p => ContentPart.model_validate j = Ok p) items (Turn.parts t).
Proof.
  assert (Hrole : forall j r, Turn.validate_role j = Ok r <-> j = JStr (Turn.role_value r)).
  { intros j r. apply validate_enum_Ok; [distinct_values | simpl; destruct r; tauto]. }
  unfold Turn.model_validate. cbn [as_model bind]. split.
  - intros Hok. apply bind_Ok in Hok as (r & Hr & Hok).
    apply bind_Ok in Hok as (ps & Hps & [= <-]). simpl. split.
    + apply with_default_Ok in Hr as [[Hk ->] | (j & Hk & Hv)].
      * left. split; [exact Hk | reflexivity].
      * right. apply Hrole in Hv. subst j. exact Hk.
    + apply required_Ok in Hps as (j & Hk & Hv).
      apply validate_list_Ok in Hv as (items & -> & Hall). eauto.
  - intros [Hr (items & Hk & Hall)].
    apply bind_Ok. exists (Turn.role t). split.
    + apply with_default_Ok. destruct Hr as [[Hn ->] | Hs].
      * left. split; [exact Hn | reflexivity].
      * right. eexists. split; [exact Hs | ]. apply Hrole. reflexivity.
    + apply bind_Ok. exists (Turn.parts t). split; [ | destruct t; reflexivity ].
      apply required_Ok. exists (JArray items). split; [exact Hk | ].
      apply validate_list_Ok. eauto.
Qed.

(** X18. Inline data of a model turn and a media chunk of the client are
    each decoded exactly from an object with strings under [mimeType] and
    [data]; both keys are needed and both strings are kept as they are:
    [data] is not checked to be base64 text. *)
Theorem media_payloads_decode_iff (d : dict) :
  (forall c, InlineData.model_validate (JObject d) = Ok c <->
     dict_get (py "mimeType") d = Some (JStr (InlineData.mimeType c))
     /\ dict_get (py "data") d = Some (JStr (InlineData.data c)))
  /\ (forall c, MediaChunk.model_validate (JObject d) = Ok c <->
        dict_get (py "mimeType") d = Some (JStr (MediaChunk.mimeType c))
        /\ dict_get (py "data") d = Some (JStr (MediaChunk.data c))).
Proof.
  split; intros c.
  - unfold InlineData.model_validate. cbn [as_model bind]. split.
    + intros Hok. apply bind_Ok in Hok as (m & Hm & Hok).
      apply bind_Ok in Hok as (x & Hx & [= <-]). simpl.
      apply required_Ok in Hm as (jm & Hm & Hvm). apply validate_str_Ok in Hvm.
      apply required_Ok in Hx as (jx & Hx & Hvx). apply validate_str_Ok in Hvx.
      subst. auto.
    + intros (Hm & Hx). unfold required. rewrite Hm, Hx. destruct c. reflexivity.
  - unfold MediaChunk.model_validate. cbn [as_model bind]. split.
    + intros Hok. apply bind_Ok in Hok as (m & Hm & Hok).
      apply bind_Ok in Hok as (x & Hx & [= <-]). simpl.
      apply required_Ok in Hm as (jm & Hm & Hvm). apply validate_str_Ok in Hvm.
      apply required_Ok in Hx as (jx & Hx & Hvx). apply validate_str_Ok in Hvx.
      subst. auto.
    + intros (Hm & Hx). unfold required. rewrite Hm, Hx. destruct c. reflexivity.
Qed.
